(** * AirbnbFilter: the listing pipeline (filter, stats, rank, order)

    A shallow embedding of the two data handlers of the repository and of
    the ECMAScript built-ins they call.

    - JavaScript numbers are IEEE 754 binary64 values: Rocq's primitive
      [float], whose comparisons are the IEEE ones ([NaN] compares false,
      [-0 = 0]).
    - JavaScript strings are sequences of code units; a [string] here holds
      the code units below 256 (one [ascii] each).
    - Objects are property lists in creation order; arrays are lists; the
      store of the stateful handler holds arrays and objects by reference. *)

From Stdlib Require Import ZArith Floats List Bool String Ascii Lia.
From Stdlib Require Import DecimalString Permutation Sorted.
Import ListNotations.

Local Open Scope Z_scope.

(** ** Numbers *)

Module JSNum.

Definition number := float.

Definition NaN : number := nan.
Definition Infinity : number := infinity.

(** [ToBoolean] on a number: [NaN], [+0] and [-0] are falsy. *)
Definition truthy (x : number) : bool := negb (is_nan x || is_zero x).

(** [x || d] on numbers. *)
Definition or_else (x d : number) : number := if truthy x then x else d.

(** [isFinite(x)]. *)
Definition isFinite (x : number) : bool := is_finite x.

(** The Number value for a mathematical integer (round to nearest, ties
    to even); exact below [2^53]. *)
Definition of_Z (z : Z) : number :=
  SF2Prim (binary_normalize prec emax z 0 false).

Definition of_nat (n : nat) : number := of_Z (Z.of_nat n).

(** The Number value for [m * 10^e] with [0 <= m], correctly rounded
    (StringNumericValue followed by the rounding of 6.1.6.1).
    Decimal exponents far outside the binary64 range are cut first, so
    that the powers of ten stay small. *)
Definition of_decimal (neg : bool) (m e : Z) : spec_float :=
  if m <=? 0 then S754_zero neg
  else if 310 <? e then S754_infinity neg
  else if Z.log2 m + 1 + e <? -330 then S754_zero neg
  else if 0 <=? e then binary_normalize prec emax (cond_Zopp neg (m * 10 ^ e)) 0 neg
  else
    let d := 10 ^ (- e) in
    let s := Z.max 0 (Z.log2 d + 66 - Z.log2 m) in
    let (q, r) := Z.div_eucl (m * 2 ^ s) d in
    binary_round_aux prec emax neg q (- s) (new_location d r).

(** Exact value of a positive finite number as a fraction. *)
Definition frac_of (m : positive) (e : Z) : Z * Z :=
  if 0 <=? e then (Zpos m * 2 ^ e, 1) else (Zpos m, 2 ^ (- e)).

End JSNum.
Import JSNum.

(** ** Strings *)

Module JSString.

Definition is_digit (c : ascii) : bool :=
  let n := nat_of_ascii c in (48 <=? n)%nat && (n <=? 57)%nat.

Definition digit_val (c : ascii) : Z := Z.of_nat (nat_of_ascii c) - 48.

(** Value of a hexadecimal digit, if [c] is one. *)
Definition hex_val (c : ascii) : option Z :=
  let n := Z.of_nat (nat_of_ascii c) in
  if (48 <=? n) && (n <=? 57) then Some (n - 48)
  else if (65 <=? n) && (n <=? 70) then Some (n - 55)
  else if (97 <=? n) && (n <=? 102) then Some (n - 87)
  else None.

(** WhiteSpace and LineTerminator code units below 256:
    TAB, LF, VT, FF, CR, SP and NBSP. *)
Definition is_space (c : ascii) : bool :=
  let n := nat_of_ascii c in
  ((9 <=? n)%nat && (n <=? 13)%nat) || (n =? 32)%nat || (n =? 160)%nat.

(** [TrimString(s, start)]. *)
Fixpoint trim_start (s : string) : string :=
  match s with
  | String c r => if is_space c then trim_start r else s
  | EmptyString => s
  end.

(** [s.replace(/[$,]/g, '')]. *)
Fixpoint strip_currency (s : string) : string :=
  match s with
  | EmptyString => EmptyString
  | String c r =>
      if (Ascii.eqb c "$"%char || Ascii.eqb c ","%char)
      then strip_currency r
      else String c (strip_currency r)
  end.

(** Longest run of decimal digits at the head of [s]: the value read so
    far, the number of digits, and the rest. *)
Fixpoint read_digits (s : string) (acc : Z) (n : Z) : Z * Z * string :=
  match s with
  | String c r =>
      if is_digit c then read_digits r (acc * 10 + digit_val c) (n + 1)
      else (acc, n, s)
  | EmptyString => (acc, n, s)
  end.

Fixpoint read_hex (s : string) (acc : Z) (n : Z) : Z * Z * string :=
  match s with
  | String c r =>
      match hex_val c with
      | Some v => read_hex r (acc * 16 + v) (n + 1)
      | None => (acc, n, s)
      end
  | EmptyString => (acc, n, s)
  end.

(** An optional sign: [true] for a leading minus. *)
Definition read_sign (s : string) : bool * string :=
  match s with
  | String "-"%char r => (true, r)
  | String "+"%char r => (false, r)
  | _ => (false, s)
  end.

(** ExponentPart, when one is present at the head of [s]. *)
Definition read_exponent (s : string) : Z :=
  match s with
  | String c r =>
      if (Ascii.eqb c "e"%char || Ascii.eqb c "E"%char) then
        let (neg, r') := read_sign r in
        let '(v, n, _) := read_digits r' 0 0 in
        if n =? 0 then 0 else if neg then - v else v
      else 0
  | EmptyString => 0
  end.

(** [parseFloat(s)]: the longest prefix of the trimmed text that is a
    StrDecimalLiteral, or [NaN] when there is none. *)
Definition parseFloat (s : string) : number :=
  let (neg, r) := read_sign (trim_start s) in
  if prefix "Infinity"%string r then (if neg then neg_infinity else infinity)
  else
    let '(ip, ni, r1) := read_digits r 0 0 in
    let '(m, nf, r2) :=
      match r1 with
      | String "."%char r1' =>
          let '(m, nf, r2) := read_digits r1' ip 0 in
          if (ni =? 0) && (nf =? 0) then (ip, 0, r1) else (m, nf, r2)
      | _ => (ip, 0, r1)
      end in
    if (ni =? 0) && (nf =? 0) then NaN
    else SF2Prim (of_decimal neg m (read_exponent r2 - nf)).

(** [parseInt(s)] with no radix argument: radix 16 after a [0x] prefix,
    radix 10 otherwise. *)
Definition parseInt (s : string) : number :=
  let (neg, r) := read_sign (trim_start s) in
  let '(v, n, _) :=
    match r with
    | String "0"%char (String c r') =>
        if (Ascii.eqb c "x"%char || Ascii.eqb c "X"%char) then read_hex r' 0 0
        else read_digits r 0 0
    | _ => read_digits r 0 0
    end in
  if n =? 0 then NaN
  else SF2Prim (binary_normalize prec emax (cond_Zopp neg v) 0 neg).

End JSString.
Import JSString.

Local Open Scope string_scope.
Local Open Scope Z_scope.


(** ** Number to text *)

Module NumberToString.

Definition digits_of (z : Z) : string :=
  NilZero.string_of_uint (N.to_uint (Z.to_N z)).

Fixpoint zeros (n : nat) : string :=
  match n with
  | O => EmptyString
  | S k => String "0"%char (zeros k)
  end.

(** [10^p <= num / den], for positive [num] and [den]. *)
Definition pow10_le (p num den : Z) : bool :=
  if 0 <=? p then den * 10 ^ p <=? num else den <=? num * 10 ^ (- p).

Fixpoint mag_from (fuel : nat) (p num den : Z) : Z :=
  match fuel with
  | O => p
  | S f => if pow10_le p num den then mag_from f (p + 1) num den else p
  end.

(** The least [p] with [num / den < 10^p]; the search starts from an
    estimate that is at most four below it. *)
Definition magnitude (num den : Z) : Z :=
  mag_from 8 ((Z.log2 num - Z.log2 den - 1) * 30103 / 100000 - 1) num den.

(** [floor (num / den / 10^t)], and whether the division is exact. *)
Definition scaled_floor (t num den : Z) : Z * bool :=
  let (n, d) := if 0 <=? t then (num, den * 10 ^ t) else (num * 10 ^ (- t), den) in
  (n / d, n mod d =? 0).

(** Position of [num / den] against the midpoint of [lo * 10^t] and
    [(lo + 1) * 10^t]. *)
Definition against_mid (lo t num den : Z) : comparison :=
  if 0 <=? t then 2 * num ?= (2 * lo + 1) * 10 ^ t * den
  else 2 * num * 10 ^ (- t) ?= (2 * lo + 1) * den.

(** The digits [s] and scale [t] of Number::toString: the fewest digits
    whose value [s * 10^t] rounds back to [x]; among several the one
    nearest to [x], and the even one on a tie. *)
Fixpoint shortest (fuel : nat) (k p : Z) (x : spec_float) (num den : Z) : Z * Z :=
  let t := p - k in
  let (lo, exact) := scaled_floor t num den in
  match fuel with
  | O => (lo, t)
  | S f =>
      if exact then (lo, t)
      else
        let rl := SFeqb x (of_decimal false lo t) in
        let rh := SFeqb x (of_decimal false (lo + 1) t) in
        match rl, rh with
        | true, true =>
            match against_mid lo t num den with
            | Lt => (lo, t)
            | Gt => (lo + 1, t)
            | Eq => if Z.even lo then (lo, t) else (lo + 1, t)
            end
        | true, false => (lo, t)
        | false, true => (lo + 1, t)
        | false, false => shortest f (k + 1) p x num den
        end
  end.

Fixpoint strip_zeros (fuel : nat) (s t : Z) : Z * Z :=
  match fuel with
  | O => (s, t)
  | S f => if (0 <? s) && (s mod 10 =? 0) then strip_zeros f (s / 10) (t + 1) else (s, t)
  end.

(** Steps 7 to 11 of Number::toString for radix 10: [ds] are the [k]
    digits and the value is [0.ds * 10^n]. *)
Definition layout (ds : string) (n : Z) : string :=
  let k := Z.of_nat (String.length ds) in
  if (k <=? n) && (n <=? 21) then ds ++ zeros (Z.to_nat (n - k))
  else if (0 <? n) && (n <=? 21) then
    substring 0 (Z.to_nat n) ds ++ "." ++ substring (Z.to_nat n) (Z.to_nat (k - n)) ds
  else if (-6 <? n) && (n <=? 0) then "0." ++ zeros (Z.to_nat (- n)) ++ ds
  else
    let e := (if 0 <? n - 1 then "+" else "-") ++ digits_of (Z.abs (n - 1)) in
    if k =? 1 then ds ++ "e" ++ e
    else substring 0 1 ds ++ "." ++ substring 1 (Z.to_nat (k - 1)) ds ++ "e" ++ e.

Definition positive_to_string (m : positive) (e : Z) : string :=
  let (num, den) := frac_of m e in
  let (s, t) := shortest 17 1 (magnitude num den) (S754_finite false m e) num den in
  let (s', t') := strip_zeros 400 s t in
  let ds := digits_of s' in
  layout ds (t' + Z.of_nat (String.length ds)).

(** [Number::toString(x)] with radix 10. *)
Definition toString (x : number) : string :=
  match Prim2SF x with
  | S754_nan => "NaN"
  | S754_zero _ => "0"
  | S754_infinity s => if s then "-Infinity" else "Infinity"
  | S754_finite s m e => (if s then "-" else EmptyString) ++ positive_to_string m e
  end.

(** The integer nearest to [100 * m * 2^e], the larger one on a tie. *)
Definition hundredths (m : positive) (e : Z) : Z :=
  if 0 <=? e then 100 * Zpos m * 2 ^ e
  else (200 * Zpos m + 2 ^ (- e)) / (2 * 2 ^ (- e)).

(** The digits of [n], padded to three, with a point before the last
    two. *)
Definition two_decimals (n : Z) : string :=
  let ds := digits_of n in
  let ds' := zeros (3 - String.length ds) ++ ds in
  let k := String.length ds' in
  substring 0 (k - 2) ds' ++ "." ++ substring (k - 2) 2 ds'.

(** [x.toFixed(2)]. *)
Definition toFixed2 (x : number) : string :=
  match Prim2SF x with
  | S754_finite s m e =>
      if (1e21 <=? abs x)%float then toString x
      else (if s then "-" else EmptyString) ++ two_decimals (hundredths m e)
  | S754_zero _ => two_decimals 0
  | _ => toString x
  end.

End NumberToString.
Import NumberToString.

(** ** Values and objects *)

(** The values of a decoded row.  The decoder can also produce dates; a
    date renders as text through [toString] and is not a number for
    [typeof], so in every function below it behaves as the [VStr] of its
    rendering. *)
Inductive value : Type :=
| VUndefined
| VNull
| VBool (b : bool)
| VNum (x : number)
| VStr (s : string).

(** [ToString(v)], also the property key [v] denotes. *)
Definition ToString (v : value) : string :=
  match v with
  | VUndefined => "undefined"
  | VNull => "null"
  | VBool b => if b then "true" else "false"
  | VNum x => toString x
  | VStr s => s
  end.

(** [v?.toString()]: nothing when [v] is [undefined] or [null]. *)
Definition opt_toString (v : value) : option string :=
  match v with
  | VUndefined | VNull => None
  | _ => Some (ToString v)
  end.

(** [s || d] on text: the empty string is falsy. *)
Definition str_or_else (s d : string) : string :=
  match s with EmptyString => d | _ => s end.

Module Obj.

(** The own properties of a plain object in creation order, one entry
    per key.  Members inherited from [Object.prototype] are not part of
    the model: keys are column names and host identifiers. *)
Definition props (V : Type) := list (string * V).

Section Props.
Context {V : Type}.

Fixpoint get (o : props V) (k : string) : option V :=
  match o with
  | [] => None
  | (k', v) :: o' => if String.eqb k' k then Some v else get o' k
  end.

(** [o[k] = v]: an existing property keeps its place, a new one goes
    last. *)
Fixpoint set (o : props V) (k : string) (v : V) : props V :=
  match o with
  | [] => [(k, v)]
  | (k', v') :: o' =>
      if String.eqb k' k then (k', v) :: o' else (k', v') :: set o' k v
  end.

(** An array index: a canonical numeric string below [2^32 - 1]. *)
Definition array_index (k : string) : option Z :=
  match k with
  | EmptyString => None
  | String c r =>
      let '(v, _, rest) := read_digits k 0 0 in
      match rest with
      | EmptyString =>
          if (negb (Ascii.eqb c "0"%char) || String.eqb r EmptyString)
             && (v <=? 4294967294)
          then Some v else None
      | _ => None
      end
  end.

Definition is_named (kv : string * V) : bool :=
  match array_index (fst kv) with None => true | Some _ => false end.

Definition indexed (o : props V) : list (Z * (string * V)) :=
  flat_map (fun kv => match array_index (fst kv) with
                      | Some i => [(i, kv)]
                      | None => []
                      end) o.
End Props.

End Obj.

(** ** Arrays *)

Module Arr.

Section Sort.
Context {A : Type}.

(** [after a b] holds when the comparator answers a positive number
    for [(a, b)], so that [a] has to come after [b]. *)
Variable after : A -> A -> bool.

Fixpoint insert (x : A) (l : list A) : list A :=
  match l with
  | [] => [x]
  | y :: l' => if after x y then y :: insert x l' else x :: l
  end.

(** [Array.prototype.sort(comparator)], stable since ES2019.  For a
    comparator that is a consistent ordering every conforming sort
    returns the same array, the one stable insertion builds. *)
Fixpoint sort (l : list A) : list A :=
  match l with
  | [] => []
  | x :: l' => insert x (sort l')
  end.
End Sort.

(** [a.slice(0, n)] for a count [n]. *)
Definition slice0 {A : Type} (n : nat) (a : list A) : list A := firstn n a.

End Arr.

(** [Object.entries(o)]: array-index keys in ascending numeric order, then
    the other keys in creation order. *)
Definition entries {V : Type} (o : Obj.props V) : list (string * V) :=
  (map snd (Arr.sort (fun a b => fst b <? fst a) (Obj.indexed o))
     ++ filter Obj.is_named o)%list.

(** A listing: one decoded row. *)
Definition listing := Obj.props value.

(** [item[prop]]. *)
Definition field (item : listing) (prop : string) : value :=
  match Obj.get item prop with
  | Some v => v
  | None => VUndefined
  end.

(** ** References *)

Module Heap.

Section Cells.
Context {A : Type}.

Definition heap := list A.

Definition alloc (h : heap) (a : A) : heap * nat := ((h ++ [a])%list, List.length h).

(** The cell behind a reference; [d] stands for a reference that was
    never handed out. *)
Definition deref (d : A) (h : heap) (r : nat) : A := nth r h d.

Fixpoint update (h : heap) (r : nat) (a : A) : heap :=
  match h, r with
  | [], _ => []
  | _ :: h', O => a :: h'
  | x :: h', S r' => x :: update h' r' a
  end.
End Cells.

Arguments heap : clear implicits.

End Heap.

Inductive error : Type := TypeError.

Inductive outcome (A : Type) : Type :=
| Return (a : A)
| Throw (e : error).
Arguments Return {A} a.
Arguments Throw {A} e.

(** ** The filter configuration *)

Record FilterParameters : Type := {
  price_min : number;
  price_max : number;
  room_min : number;
  room_max : number;
  score_min : number;
  score_max : number
}.

(** [!isNaN(x) ? x : 0], what the prompt stores for each bound it reads. *)
Definition bound_or_zero (x : number) : number :=
  if negb (is_nan x) then x else 0%float.

(** [askFilterData]: the bounds start at zero; an answer, once split at
    the comma and converted, overwrites its pair ([NaN] standing for a
    component that is missing or does not convert). *)
Definition askFilterData (price room score : option (number * number)) : FilterParameters :=
  let pair (answer : option (number * number)) :=
    match answer with
    | Some (min, max) => (bound_or_zero min, bound_or_zero max)
    | None => (0%float, 0%float)
    end in
  {| price_min := fst (pair price); price_max := snd (pair price);
     room_min := fst (pair room); room_max := snd (pair room);
     score_min := fst (pair score); score_max := snd (pair score) |}.

(** ** Host table entries *)

(** One entry of the host table.  The count is a JavaScript number that
    only ever holds an integer bounded by the array length, on which
    [+ 1] and [-] are exact: it is kept as an integer. *)
Record HostData : Type := { name : value; hcount : Z }.

(** The property key [listing.host_id] denotes. *)
Definition host_key (l : listing) : string := ToString (field l "host_id").

(** The comparator of both rankings: [(a, b) => b[1].count - a[1].count]. *)
Definition by_count_desc (a b : string * HostData) : bool :=
  0 <? hcount (snd b) - hcount (snd a).

(** [Math.round(x)]: the integer nearest to [x], the larger one on a tie. *)
Definition Math_round (x : number) : number :=
  match Prim2SF x with
  | S754_finite s m e =>
      if 0 <=? e then x
      else
        let n := (2 * cond_Zopp s (Zpos m) + 2 ^ (- e)) / (2 * 2 ^ (- e)) in
        if n =? 0 then (if s then PrimFloat.neg_zero else PrimFloat.zero) else of_Z n
  | _ => x
  end.

(** [Math.max(a, b)]. *)
Definition Math_max (a b : number) : number :=
  if is_nan a || is_nan b then NaN
  else if (a <? b)%float then b
  else if (b <? a)%float then a
  else if get_sign a then b else a.

(** ** The functional handler *)

Module Functional.

Local Open Scope float_scope.

Definition getNumber (item : listing) (prop : string) : number :=
  let value :=
    match opt_toString (field item prop) with
    | Some s => str_or_else (strip_currency s) "0"
    | None => "0"
    end in
  or_else (parseFloat value) 0.

Definition createComparator {A : Type} (getValue : A -> number) : A -> A -> number :=
  fun a b => getValue a - getValue b.

(** One dimension of the filter: [!max || (v >= min && v <= max)]. *)
Definition passes (min max v : number) : bool :=
  negb (truthy max) || ((min <=? v) && (v <=? max)).

(** The callback of [filterListings]. *)
Definition keeps (filters : FilterParameters) (listing : listing) : bool :=
  let price := getNumber listing "price" in
  let bedrooms := getNumber listing "bedrooms" in
  let score := getNumber listing "review_scores_rating" in
  passes (price_min filters) (price_max filters) price
  && passes (room_min filters) (room_max filters) bedrooms
  && passes (score_min filters) (score_max filters) score.

Definition filterListings (data : list listing) (filters : FilterParameters) : list listing :=
  filter (keeps filters) data.

Record ListingStats : Type := {
  count : nat;
  averagePrice : number;
  avgPricePerRoom : number;
  validListings : nat
}.

(** [typeof item.host_id === 'number' && item.host_id > 0]. *)
Definition valid_host (item : listing) : bool :=
  match field item "host_id" with
  | VNum x => 0 <? x
  | _ => false
  end.

Definition total (prop : string) (data : list listing) : number :=
  fold_left (fun sum item => sum + getNumber item prop) data 0.

Definition calculateStats (data : list listing) : ListingStats :=
  let totalPrice := total "price" data in
  let totalRooms := total "bedrooms" data in
  {| count := List.length data;
     averagePrice := totalPrice / of_nat (List.length data);
     avgPricePerRoom := totalPrice / totalRooms;
     validListings := List.length (filter valid_host data) |}.

(** [(acc[id]?.count || 0) + 1]. *)
Definition next_count (acc : Obj.props HostData) (id : string) : Z :=
  (match Obj.get acc id with
   | Some d => if hcount d =? 0 then 0 else hcount d
   | None => 0
   end + 1)%Z.

(** The reducer: [{...acc, [id]: {name, count}}].  The spread copies
    the properties of [acc] in their enumeration order. *)
Definition rank_step (acc : Obj.props HostData) (l : listing) : Obj.props HostData :=
  Obj.set (entries acc) (host_key l)
    {| name := field l "host_name"; hcount := next_count acc (host_key l) |}.

Definition rankHosts (data : list listing) : list (string * HostData) :=
  Arr.sort by_count_desc (entries (fold_left rank_step data [])).

(** The handler closes over a reference to its array; [filter] and
    [order] build a new array and a new handler around it.  Nothing in
    this handler writes to a row object, so the arrays hold the rows
    themselves. *)
Definition arrays := Heap.heap (list listing).

Definition data_of (st : arrays) (h : nat) : list listing := Heap.deref [] st h.

Definition handler_filter (st : arrays) (h : nat) (filters : FilterParameters) : arrays * nat :=
  Heap.alloc st (filterListings (data_of st h) filters).

Definition handler_computeStats (st : arrays) (h : nat) : ListingStats :=
  calculateStats (data_of st h).

(** [rankHosts(limit = 10)]: the limit is the number of hosts to show. *)
Definition default_limit : nat := 10.

Definition handler_rankHosts (st : arrays) (h : nat) (limit : nat) : list (string * HostData) :=
  Arr.slice0 limit (rankHosts (data_of st h)).

(** [[...data].sort(comparator)]: the copy is allocated first and then
    sorted in place. *)
Definition handler_order (st : arrays) (h : nat) (property : string) : arrays * nat :=
  let comparator := createComparator (fun item => getNumber item property) in
  let (st1, copy) := Heap.alloc st (data_of st h) in
  (Heap.update st1 copy
     (Arr.sort (fun a b => 0 <? comparator a b) (Heap.deref [] st1 copy)), copy).

End Functional.

(** ** The stateful handler *)

Module Stateful.

Local Open Scope float_scope.

(** The closure of the handler: the loaded rows ([undefined] until the
    file is read), the working array, and the store they point into.
    Arrays hold references to row objects, so the rows of [data] and of
    [filteredListings] are the same objects. *)
Record state : Type := {
  arrays : Heap.heap (list nat);
  objects : Heap.heap listing;
  data : option nat;
  filteredListings : nat
}.

Definition row (st : state) (r : nat) : listing := Heap.deref [] (objects st) r.

Definition array (st : state) (a : nat) : list nat := Heap.deref [] (arrays st) a.

(** The rows of the working array, in order. *)
Definition working (st : state) : list listing :=
  map (row st) (array st (filteredListings st)).

(** [AirBnBDataHandler()]: [filteredListings = []]. *)
Definition init : state :=
  {| arrays := [[]]; objects := []; data := None; filteredListings := 0 |}.

(** [readCsv]: the decoder's rows become fresh objects in a fresh array. *)
Definition readCsv (st : state) (rows : list listing) : state :=
  let base := List.length (objects st) in
  let (arrs, a) := Heap.alloc (arrays st) (map (Nat.add base) (seq 0 (List.length rows))) in
  {| arrays := arrs;
     objects := (objects st ++ rows)%list;
     data := Some a;
     filteredListings := filteredListings st |}.

(** [parseFloat(listing.price?.toString().replace(/[$,]/g, '')) || 0]. *)
Definition price_of (l : listing) : number :=
  or_else (parseFloat (match opt_toString (field l "price") with
                       | Some s => strip_currency s
                       | None => ToString VUndefined
                       end)) 0.

(** [parseInt(listing.bedrooms) || 0]. *)
Definition bedrooms_of (l : listing) : number :=
  or_else (parseInt (ToString (field l "bedrooms"))) 0.

(** [parseFloat(listing.review_scores_rating) || 0]. *)
Definition score_of (l : listing) : number :=
  or_else (parseFloat (ToString (field l "review_scores_rating"))) 0.

(** One dimension of the filter: [max === 0 || (v >= min && v <= max)]. *)
Definition passes (min max v : number) : bool :=
  (max =? 0) || ((min <=? v) && (v <=? max)).

Definition keeps (filters : FilterParameters) (l : listing) : bool :=
  let priceFilter := passes (price_min filters) (price_max filters) (price_of l) in
  let roomFilter := passes (room_min filters) (room_max filters) (bedrooms_of l) in
  let scoreFilter := passes (score_min filters) (score_max filters) (score_of l) in
  priceFilter && roomFilter && scoreFilter.

(** [filteredListings = data.filter(...)]. *)
Definition filter (st : state) (filters : FilterParameters) : outcome state :=
  match data st with
  | None => Throw TypeError
  | Some d =>
      let (arrs, a) :=
        Heap.alloc (arrays st)
          (List.filter (fun r => keeps filters (row st r)) (array st d)) in
      Return {| arrays := arrs; objects := objects st;
                data := data st; filteredListings := a |}
  end.

(** What [computeStats] prints. *)
Record report : Type := {
  validListings : nat;
  averagePrice : number;
  avgPricePerRoom : number
}.

Definition valid_host (item : listing) : bool :=
  match field item "host_id" with
  | VNum x => 0 <? x
  | _ => false
  end.

(** [(price / (rooms || 1)).toFixed(2)]. *)
Definition price_per_room (l : listing) : string :=
  toFixed2 (price_of l / or_else (bedrooms_of l) 1).

(** The body of the [forEach]: the running totals and the annotation of
    the row object. *)
Definition stats_step (acc : Heap.heap listing * number * number) (r : nat)
  : Heap.heap listing * number * number :=
  let '(objs, totalPrice, totalRooms) := acc in
  let l := Heap.deref [] objs r in
  (Heap.update objs r (Obj.set l "price_per_room" (VStr (price_per_room l))),
   totalPrice + price_of l, totalRooms + bedrooms_of l).

Definition round2 (x : number) : number := Math_round (x * 100) / 100.

Definition computeStats (st : state) : state * report :=
  let rows := array st (filteredListings st) in
  let valid := List.length (List.filter (fun r => valid_host (row st r)) rows) in
  let '(objs, totalPrice, totalRooms) := fold_left stats_step rows (objects st, 0, 0) in
  ({| arrays := arrays st; objects := objs;
      data := data st; filteredListings := filteredListings st |},
   {| validListings := valid;
      averagePrice := round2 (totalPrice / of_nat (List.length rows));
      avgPricePerRoom := round2 (totalPrice / totalRooms) |}).

(** The reducer: [acc[id] = acc[id] || {name, count: 0}; acc[id].count++]. *)
Definition rank_step (acc : Obj.props HostData) (l : listing) : Obj.props HostData :=
  let id := host_key l in
  let d := match Obj.get acc id with
           | Some d => d
           | None => {| name := field l "host_name"; hcount := 0 |}
           end in
  Obj.set acc id {| name := name d; hcount := (hcount d + 1)%Z |}.

(** The lines [rankHosts] prints: the first ten of the sorted entries. *)
Definition rankHosts (st : state) : list (string * HostData) :=
  let hosts := fold_left rank_step (working st) [] in
  let sortedHosts := Arr.sort by_count_desc (entries hosts) in
  Arr.slice0 10 sortedHosts.

Definition getNumericValue (property : string) (item : listing) : number :=
  let value :=
    match opt_toString (field item property) with
    | Some s => str_or_else (strip_currency s) "0"
    | None => "0"
    end in
  or_else (parseFloat value) 0.

(** [order(property)]: the two log lines read [filteredListings[0][property]],
    which is a property read on [undefined] when the array is empty; the
    sort is the in-place one of the working array. *)
Definition order (st : state) (property : string) : outcome state :=
  match array st (filteredListings st) with
  | [] => Throw TypeError
  | rows =>
      let after a b :=
        0 <? getNumericValue property (row st a) - getNumericValue property (row st b) in
      Return {| arrays := Heap.update (arrays st) (filteredListings st) (Arr.sort after rows);
                objects := objects st;
                data := data st;
                filteredListings := filteredListings st |}
  end.

End Stateful.

(** ** The first script *)

Module Script.

Local Open Scope float_scope.

(** [main.js]: the ratio is stored under [avg_price], with a divisor
    parsed as a float and [Math.round] for the two decimals. *)
Definition avg_price (l : listing) : number :=
  let raw := Stateful.price_of l
             / or_else (parseFloat (ToString (field l "bedrooms"))) 1 in
  Math_round (raw * 100) / 100.

End Script.

(** ** The first script and the two command-line programs *)

Module FirstScript.

Local Open Scope float_scope.

(** One dimension of the first filter:
    [v >= filters.min && v <= filters.max], with no case for a zero
    maximum. *)
Definition between (min max v : number) : bool := (min <=? v) && (v <=? max).

(** The callback of [data.filter] in [startFiltering]. *)
Definition keeps (filters : FilterParameters) (l : listing) : bool :=
  between (price_min filters) (price_max filters) (Stateful.price_of l)
  && between (room_min filters) (room_max filters) (Stateful.bedrooms_of l)
  && between (score_min filters) (score_max filters) (Stateful.score_of l).

End FirstScript.

(** [if (answer)] on the text of an answer: only the empty text is falsy. *)
Definition answered (s : string) : bool :=
  match s with EmptyString => false | _ => true end.

(** What a run leaves behind: the status the process exits with, and the
    rows of the file when one was written. *)
Record result : Type := {
  status : Z;
  written : option (list listing)
}.

(** The program over the stateful handler.  [rows] is what the decoder
    made of [listings.csv] (a file that cannot be read ends the process
    inside [readCsv], before anything below), the three pairs are the
    answers to the filter prompts, [order] and [path] the answers to the
    last two prompts, and [disk] tells whether writing a file succeeds. *)
Module StatefulProcessor.

Definition run (rows : list listing) (price room score : option (number * number))
  (order path : string) (disk : bool) : result :=
  let st := Stateful.readCsv Stateful.init rows in
  match Stateful.filter st (askFilterData price room score) with
  | Throw _ => {| status := 1; written := None |}
  | Return st =>
      let st := fst (Stateful.computeStats st) in
      let ranked := Stateful.rankHosts st in
      match (if answered order then Stateful.order st order else Return st) with
      | Throw _ => {| status := 1; written := None |}
      | Return st =>
          (* [writeIntoFile] logs a failed write and returns *)
          {| status := 0;
             written := if answered path && disk then Some (Stateful.working st) else None |}
      end
  end.

End StatefulProcessor.

(** The program over the functional handler. *)
Module FunctionalProcessor.

Definition run (rows : list listing) (price room score : option (number * number))
  (order path : string) (disk : bool) : result :=
  let (st, myHandler) := Heap.alloc [] rows in
  let (st, filtered) :=
    Functional.handler_filter st myHandler (askFilterData price room score) in
  let stats := Functional.handler_computeStats st filtered in
  let ranked := Functional.handler_rankHosts st filtered Functional.default_limit in
  let (st, filtered) :=
    if answered order then Functional.handler_order st filtered order else (st, filtered) in
  if answered path then
    (* [writeToFile] turns a failed write into an [Error], which ends [run] *)
    if disk then {| status := 0; written := Some (Functional.data_of st filtered) |}
    else {| status := 1; written := None |}
  else {| status := 0; written := None |}.

End FunctionalProcessor.

(** ** Calls on the stateful handler *)

(** The methods of the stateful handler that touch its two variables, as
    a client can call them in any order.  [rankHosts] only prints. *)
Inductive call : Type :=
| CallRead (rows : list listing)
| CallFilter (filters : FilterParameters)
| CallStats
| CallRank
| CallOrder (property : string).

Definition perform (st : Stateful.state) (c : call) : outcome Stateful.state :=
  match c with
  | CallRead rows => Return (Stateful.readCsv st rows)
  | CallFilter filters => Stateful.filter st filters
  | CallStats => Return (fst (Stateful.computeStats st))
  | CallRank => Return st
  | CallOrder property => Stateful.order st property
  end.

(** A sequence of calls, stopped by the first one that throws. *)
Fixpoint perform_all (st : Stateful.state) (cs : list call) : outcome Stateful.state :=
  match cs with
  | [] => Return st
  | c :: cs' =>
      match perform st c with
      | Return st' => perform_all st' cs'
      | Throw e => Throw e
      end
  end.

(** The array behind the [filteredListings] property of the object the
    constructor returns: the one the variable held at that moment. *)
Definition exposed : nat := Stateful.filteredListings Stateful.init.

(** * Vocabulary of the properties *)

(** ** Predicates *)

Section Vocabulary.

Definition sf_is_nan (x : spec_float) : bool :=
  match x with S754_nan => true | _ => false end.

Definition sf_is_zero (x : spec_float) : bool :=
  match x with S754_zero _ => true | _ => false end.

(** Strictly positive: what [0 < x] tests. *)
Definition sf_pos (x : spec_float) : bool :=
  match x with
  | S754_finite false _ _ | S754_infinity false => true
  | _ => false
  end.

Definition sf_sign (x : spec_float) : option bool :=
  match x with
  | S754_nan => None
  | S754_zero s | S754_infinity s | S754_finite s _ _ => Some s
  end.

(** The text [getNumber] parses: the field rendered as text with [$] and
    [,] removed, or ["0"] when the field is absent or renders empty. *)
Definition numeric_text (v : value) : string :=
  match v with
  | VUndefined | VNull => "0"
  | _ => str_or_else (strip_currency (ToString v)) "0"
  end.

(** [x] may stand before [y]: the comparator does not ask for a swap. *)
Definition in_order {A : Type} (after : A -> A -> bool) (x y : A) : Prop :=
  after x y = false.

(** The keys of a property list, in its order. *)
Definition keys {V : Type} (o : Obj.props V) : list string := map fst o.

(** Sum of the counts of a ranking. *)
Fixpoint sum_counts (o : list (string * HostData)) : Z :=
  match o with
  | [] => 0
  | kv :: o' => hcount (snd kv) + sum_counts o'
  end.


(** Descending order of the counts. *)
Definition count_desc (a b : string * HostData) : Prop :=
  hcount (snd a) >= hcount (snd b).

(** What the reducer maintains: one entry per host key met so far, the
    counts adding up to the number of listings met, none of them zero. *)
Definition rank_inv (seen : list listing) (acc : Obj.props HostData) : Prop :=
  NoDup (keys acc)
  /\ (forall k, In k (keys acc) <-> In k (map host_key seen))
  /\ sum_counts acc = Z.of_nat (List.length seen)
  /\ Forall (fun kv => 0 < hcount (snd kv)) acc.

(** The entry of key [k] carries the name of the listing [l] that splits
    the dataset as [pre ++ l :: post]. *)
Definition named_after_last (data : list listing) (k : string) (d : HostData) : Prop :=
  exists pre l post,
    data = (pre ++ l :: post)%list
    /\ host_key l = k
    /\ ~ In k (map host_key post)
    /\ name d = field l "host_name".

Definition named_after_first (data : list listing) (k : string) (d : HostData) : Prop :=
  exists pre l post,
    data = (pre ++ l :: post)%list
    /\ host_key l = k
    /\ ~ In k (map host_key pre)
    /\ name d = field l "host_name".

(** What the stateful reducer maintains. *)
Definition stateful_inv (seen : list listing) (acc : Obj.props HostData) : Prop :=
  NoDup (keys acc)
  /\ (forall k, In k (keys acc) <-> In k (map host_key seen))
  /\ (forall k d, Obj.get acc k = Some d -> named_after_first seen k d).

(** The row [computeStats] leaves behind. *)
Definition annotate (l : listing) : listing :=
  Obj.set l "price_per_room" (VStr (Stateful.price_per_room l)).

Definition annotate_at (objs : Heap.heap listing) (r : nat) : Heap.heap listing :=
  Heap.update objs r (annotate (Heap.deref [] objs r)).

End Vocabulary.

(** ** Ranges, comparators and sample data *)

Section FloatVocabulary.

Local Open Scope float_scope.


(** The bounds the prompt produces: no maximum is [NaN]. *)
Definition criteria_ok (c : FilterParameters) : Prop :=
  is_nan (price_max c) = false
  /\ is_nan (room_max c) = false
  /\ is_nan (score_max c) = false.

(** The swap test [order] sorts with: the comparator built by
    [createComparator] over [getNumber] answers a positive number. *)
Definition order_after (property : string) (a b : listing) : bool :=
  0 <? Functional.createComparator (fun item => Functional.getNumber item property) a b.

Definition row_of (price bedrooms score host_id : value) (host_name : string) : listing :=
  [("price", price); ("bedrooms", bedrooms); ("review_scores_rating", score);
   ("host_id", host_id); ("host_name", VStr host_name)].

(** The three listings of the specification's scenario. *)
Definition scenario : list listing :=
  [row_of (VStr "$200") (VNum 2) (VNum 4.5) (VNum 1) "A";
   row_of (VStr "$100") (VNum 1) (VNum 3) (VNum 1) "A";
   row_of (VStr "$50") (VNum 1) (VNum 5) (VNum 2) "B"].

Definition no_filter : FilterParameters :=
  {| price_min := 0; price_max := 0; room_min := 0; room_max := 0;
     score_min := 0; score_max := 0 |}.

Definition price_between (lo hi : number) : FilterParameters :=
  {| price_min := lo; price_max := hi; room_min := 0; room_max := 0;
     score_min := 0; score_max := 0 |}.

Definition rooms_between (lo hi : number) : FilterParameters :=
  {| price_min := 0; price_max := 0; room_min := lo; room_max := hi;
     score_min := 0; score_max := 0 |}.

(** The stateful handler after [readCsv] and [filter]. *)
Definition filtered (rows : list listing) (c : FilterParameters) : Stateful.state :=
  match Stateful.filter (Stateful.readCsv Stateful.init rows) c with
  | Return st => st
  | Throw _ => Stateful.init
  end.

Definition hosted (host_id : value) (host_name : string) : listing :=
  [("host_id", host_id); ("host_name", VStr host_name)].

End FloatVocabulary.

(** ** Counts, tables and states *)

Section CoverageVocabulary.

(** The number of listings of [data] whose host id denotes the key [k]. *)
Definition listings_of (data : list listing) (k : string) : Z :=
  Z.of_nat (count_occ string_dec (map host_key data) k).

Definition counts_ok (seen : list listing) (acc : Obj.props HostData) : Prop :=
  forall k d, Obj.get acc k = Some d -> hcount d = listings_of seen k.


(** A heap whose rows are those of [O], annotated or not. *)
Definition annotated_from (O objs : Heap.heap listing) : Prop :=
  List.length objs = List.length O
  /\ forall r, Heap.deref [] objs r = Heap.deref [] O r
               \/ Heap.deref [] objs r = annotate (Heap.deref [] O r).

(** Every reference of the state points to a cell, and the exposed array
    is empty. *)
Definition live (st : Stateful.state) : Prop :=
  (Stateful.filteredListings st < List.length (Stateful.arrays st))%nat
  /\ (forall d, Stateful.data st = Some d -> (d < List.length (Stateful.arrays st))%nat)
  /\ Forall (Forall (fun r => (r < List.length (Stateful.objects st))%nat)) (Stateful.arrays st)
  /\ Stateful.array st exposed = [].



(** A table with its values replaced through [g]. *)
Definition retag {V W : Type} (g : V -> W) (o : Obj.props V) : Obj.props W :=
  map (fun kv => (fst kv, g (snd kv))) o.




End CoverageVocabulary.

(** ** Orders, sums and answers *)

Section CoverageFloatVocabulary.

Local Open Scope float_scope.

Definition ascending_by (property : string) (a b : listing) : Prop :=
  (Functional.getNumber a property <=? Functional.getNumber b property) = true.

(** The listings whose extracted value equals [v]. *)
Definition valued (property : string) (v : number) (l : listing) : bool :=
  Functional.getNumber l property =? v.

(** The sum of what the stateful handler reads in a field of its rows. *)
Definition sum_of (f : listing -> number) (rows : list listing) : number :=
  fold_left (fun s l => s + f l) rows 0.

(** An answer that gives the criterion no maximum: none at all, or one
    whose second component is missing, not a number, or zero. *)
Definition no_maximum (answer : option (number * number)) : bool :=
  match answer with
  | None => true
  | Some (_, max) => is_nan max || (max =? 0)
  end.

Definition skip_unbounded (answer : option (number * number)) : option (number * number) :=
  if no_maximum answer then None else answer.


End CoverageFloatVocabulary.

(** * Properties *)

(** ** Binary64 facts, from the specification of the primitive operations *)

Section Binary64.

Local Open Scope float_scope.

Lemma Prim2SF_zero : Prim2SF 0 = S754_zero false.
Proof. reflexivity. Qed.

Lemma SFcompare_refl (x : spec_float) :
  SFcompare x x = if sf_is_nan x then None else Some Eq.
Proof.
  destruct x as [s | s | | s m e]; simpl; try reflexivity.
  - destruct s; reflexivity.
  - rewrite Z.compare_refl, Pos.compare_cont_refl. destruct s; reflexivity.
Qed.

Lemma is_nan_spec (x : float) : is_nan x = sf_is_nan (Prim2SF x).
Proof.
  unfold is_nan. rewrite FloatAxioms.eqb_spec. unfold SFeqb. rewrite SFcompare_refl.
  destruct (sf_is_nan (Prim2SF x)); reflexivity.
Qed.

Lemma is_zero_spec (x : float) : is_zero x = sf_is_zero (Prim2SF x).
Proof.
  unfold is_zero. rewrite FloatAxioms.eqb_spec.
  change (Prim2SF PrimFloat.zero) with (S754_zero false).
  destruct (Prim2SF x) as [s | s | | s m e]; try reflexivity; destruct s; reflexivity.
Qed.

Lemma pos_spec (x : float) : (0 <? x) = sf_pos (Prim2SF x).
Proof.
  rewrite FloatAxioms.ltb_spec.
  change (Prim2SF 0) with (S754_zero false).
  destruct (Prim2SF x) as [s | s | | s m e]; try reflexivity; destruct s; reflexivity.
Qed.

(** Rounding keeps the sign it is given. *)
Lemma binary_round_aux_sign (sx : bool) (mx ex : Z) (lx : location) :
  let r := binary_round_aux prec emax sx mx ex lx in
  sf_sign r = None \/ sf_sign r = Some sx.
Proof.
  cbv zeta. unfold binary_round_aux.
  destruct (shr_fexp prec emax mx ex lx) as [mrs e'].
  destruct (shr_fexp prec emax _ e' loc_Exact) as [mrs' e''].
  destruct (shr_m mrs') as [| p | p]; simpl; auto.
  destruct (_ <=? _)%Z; simpl; auto.
Qed.

Lemma binary_normalize_sign (m e : Z) :
  let r := binary_normalize prec emax m e false in
  match m with
  | Z0 => r = S754_zero false
  | Zpos _ => sf_sign r = None \/ sf_sign r = Some false
  | Zneg _ => sf_sign r = None \/ sf_sign r = Some true
  end.
Proof.
  destruct m as [| p | p]; simpl; [reflexivity | |];
    unfold binary_round; destruct (shl_align _ _ _) as [mz ez];
    apply (binary_round_aux_sign _ (Z.pos mz) ez loc_Exact).
Qed.

Lemma sf_pos_sign (r : spec_float) :
  sf_pos r = true -> sf_sign r = Some false.
Proof. destruct r as [s | s | | s m e]; try destruct s; simpl; congruence. Qed.

(** A difference and the opposite difference are never both positive. *)
Lemma SFsub_pos_antisym (x y : spec_float) :
  sf_pos (SF64sub x y) = true -> sf_pos (SF64sub y x) = false.
Proof.
  unfold SF64sub.
  destruct x as [sx | sx | | sx mx ex], y as [sy | sy | | sy my ey];
    try (destruct sx; try destruct sy; simpl; congruence);
    try (destruct sy; simpl; congruence);
    try (simpl; congruence).
  unfold SFsub. rewrite (Z.min_comm ey ex).
  set (ez := Z.min ex ey).
  set (a := cond_Zopp sx (Z.pos (fst (shl_align mx ex ez)))).
  set (b := cond_Zopp sy (Z.pos (fst (shl_align my ey ez)))).
  replace (b - a)%Z with (- (a - b))%Z by lia.
  pose proof (binary_normalize_sign (a - b) ez) as Hab.
  pose proof (binary_normalize_sign (- (a - b)) ez) as Hba.
  destruct (a - b)%Z as [| p | p]; cbn [Z.opp] in Hab, Hba |- *; cbv zeta in Hab, Hba.
  - rewrite Hab. discriminate.
  - intros _. destruct Hba as [Hba | Hba];
      destruct (binary_normalize prec emax (Z.neg p) ez false) as [s | s | | s m e];
      simpl in Hba |- *; try congruence; injection Hba as ->; reflexivity.
  - intros Hpos. apply sf_pos_sign in Hpos.
    destruct Hab as [Hab | Hab]; congruence.
Qed.

Lemma sub_pos_antisym (a b : float) :
  (0 <? a - b) = true -> (0 <? b - a) = false.
Proof. rewrite !pos_spec, !FloatAxioms.sub_spec. apply SFsub_pos_antisym. Qed.

(** Division by zero: [NaN] for [0 / 0] and [NaN / 0], an infinity
    otherwise. *)
Lemma div_zero_nan (x y : float) :
  is_zero y = true -> is_nan (x / y) = is_nan x || is_zero x.
Proof.
  rewrite !is_nan_spec, !is_zero_spec, FloatAxioms.div_spec. unfold SF64div.
  destruct (Prim2SF y) as [sy | sy | | sy my ey]; try discriminate.
  intros _. destruct (Prim2SF x) as [sx | sx | | sx mx ex]; reflexivity.
Qed.

Lemma div_zero_inf (x y : float) :
  is_zero y = true -> (0 <? x) = true -> x / y = infinity \/ x / y = neg_infinity.
Proof.
  rewrite is_zero_spec, pos_spec. intros Hy Hx.
  assert (H : Prim2SF (x / y) = S754_infinity false \/ Prim2SF (x / y) = S754_infinity true).
  { rewrite FloatAxioms.div_spec. unfold SF64div.
    destruct (Prim2SF y) as [sy | sy | | sy my ey]; try discriminate.
    destruct (Prim2SF x) as [sx | sx | | sx mx ex]; try destruct sx; try discriminate;
      destruct sy; simpl; auto. }
  destruct H as [H | H]; [left | right]; apply Prim2SF_inj; rewrite H; reflexivity.
Qed.

(** [x || d] is never [NaN] when [d] is not. *)
Lemma or_else_not_nan (x d : number) :
  is_nan d = false -> is_nan (or_else x d) = false.
Proof.
  intros Hd. unfold or_else, truthy.
  destruct (is_nan x) eqn:Hx; simpl; [exact Hd |].
  destruct (is_zero x); simpl; [exact Hd | exact Hx].
Qed.

Lemma or_else_value (x d : number) :
  or_else x d = if is_nan x then d else if is_zero x then d else x.
Proof. unfold or_else, truthy. destruct (is_nan x), (is_zero x); reflexivity. Qed.

End Binary64.

(** ** The built-ins on sample inputs *)

Section BuiltIns.

Local Open Scope float_scope.

Example parseFloat_samples :
  parseFloat "1234.50" = 1234.5
  /\ parseFloat "  -12.5e2xyz" = -1250
  /\ parseFloat ".5" = 0.5
  /\ parseFloat "1e400" = infinity
  /\ is_nan (parseFloat "abc") = true
  /\ is_nan (parseFloat EmptyString) = true.
Proof. repeat split. Qed.

Example parseInt_samples :
  parseInt "12px" = 12
  /\ parseInt "1.5" = 1
  /\ parseInt "0x1F" = 31
  /\ is_nan (parseInt "undefined") = true.
Proof. repeat split. Qed.

Example toString_samples :
  toString 1.5 = "1.5"
  /\ toString 20345024 = "20345024"
  /\ toString 1e21 = "1e+21"
  /\ toString (1 / 3) = "0.3333333333333333"
  /\ toString (-0) = "0"
  /\ toString infinity = "Infinity".
Proof. repeat split; vm_compute; reflexivity. Qed.

Example toFixed2_samples :
  toFixed2 100 = "100.00"
  /\ toFixed2 0.125 = "0.13"
  /\ toFixed2 (-0.125) = "-0.13"
  /\ toFixed2 (350 / 3) = "116.67"
  /\ toFixed2 nan = "NaN".
Proof. repeat split; vm_compute; reflexivity. Qed.

Example Math_round_samples :
  Math_round 2.5 = 3 /\ Math_round (-2.5) = -2 /\ Math_round 3.75 = 4.
Proof. repeat split. Qed.

Example entries_order :
  entries [("7", 1); ("b", 2); ("3", 3); ("a", 4); ("03", 5)]%Z
  = [("3", 3); ("7", 1); ("b", 2); ("a", 4); ("03", 5)]%Z.
Proof. reflexivity. Qed.

End BuiltIns.

(** ** The numeric extractor *)

Section Extractor.

Local Open Scope float_scope.

Lemma getNumber_unfold (item : listing) (prop : string) :
  Functional.getNumber item prop
  = or_else (parseFloat (numeric_text (field item prop))) 0.
Proof.
  unfold Functional.getNumber, numeric_text.
  destruct (field item prop); reflexivity.
Qed.

Lemma getNumber_not_nan (item : listing) (prop : string) :
  is_nan (Functional.getNumber item prop) = false.
Proof. rewrite getNumber_unfold. apply or_else_not_nan. reflexivity. Qed.

Lemma getNumericValue_getNumber (property : string) (item : listing) :
  Stateful.getNumericValue property item = Functional.getNumber item property.
Proof. reflexivity. Qed.

(** The inlined price extraction of the stateful handler computes what
    [getNumber] does. *)
Lemma price_of_getNumber (l : listing) :
  Stateful.price_of l = Functional.getNumber l "price".
Proof.
  rewrite getNumber_unfold. unfold Stateful.price_of, numeric_text.
  destruct (field l "price") as [| | b | x | s]; try reflexivity;
    cbn [opt_toString]; destruct (strip_currency _); reflexivity.
Qed.

(** C2, as the code has it.  For every record and field name [getNumber]
    returns a number that is not [NaN]: it parses the field's text with
    [$] and [,] removed and answers [0] when the field is absent or the
    parse gives [NaN] (or zero); the three sample calls give [1234.5],
    [100] and [0].  The result need not be finite. *)
Theorem getNumber_total :
  (forall (item : listing) (prop : string),
      let p := parseFloat (numeric_text (field item prop)) in
      is_nan (Functional.getNumber item prop) = false
      /\ Functional.getNumber item prop
         = (if is_nan p then 0 else if is_zero p then 0 else p))
  /\ (forall s : string,
         numeric_text (VStr s) = str_or_else (strip_currency s) "0")
  /\ numeric_text VUndefined = "0"
  /\ Functional.getNumber [("price", VStr "$1,234.50")] "price" = 1234.5
  /\ Functional.getNumber [("price", VStr "$100")] "price" = 100
  /\ Functional.getNumber [] "price" = 0.
Proof.
  repeat split; try reflexivity.
  - apply getNumber_not_nan.
  - rewrite getNumber_unfold. apply or_else_value.
Qed.

(** C2 as stated fails: the text [Infinity] is extracted as an infinity,
    which is not a finite number. *)
Lemma getNumber_not_always_finite :
  ~ (forall (item : listing) (prop : string),
        isFinite (Functional.getNumber item prop) = true).
Proof.
  intros H. specialize (H [("price", VStr "Infinity")] "price").
  vm_compute in H. discriminate.
Qed.

Example getNumber_overflow :
  Functional.getNumber [("price", VStr "$1e400")] "price" = infinity.
Proof. reflexivity. Qed.

End Extractor.

(** ** The filter *)

Section Filter.

Local Open Scope float_scope.






(** With the three maxima literally zero the filter is the identity,
    whatever the minima are. *)
Lemma filterListings_unconstrained (data : list listing) (pmin rmin smin : number) :
  Functional.filterListings data
    {| price_min := pmin; price_max := 0; room_min := rmin; room_max := 0;
       score_min := smin; score_max := 0 |} = data.
Proof.
  unfold Functional.filterListings.
  induction data as [| l data IH]; [reflexivity |].
  cbn [filter]. unfold Functional.keeps at 1, Functional.passes. cbn.
  now rewrite IH.
Qed.

End Filter.

(** ** The statistics *)

Section Stats.

Local Open Scope float_scope.

Lemma total_snoc (prop : string) (data : list listing) (l : listing) :
  Functional.total prop (data ++ [l])
  = Functional.total prop data + Functional.getNumber l prop.
Proof. unfold Functional.total. now rewrite fold_left_app. Qed.

(** C3, as the code has it.  [calculateStats] returns the number of
    listings, the price total divided by that number ([NaN] for the empty
    dataset), the price total divided by the bedroom total with no default
    for the divisor, and the number of listings whose [host_id] is a number
    above zero.  With a zero bedroom total the ratio is [NaN] only when the
    price total is zero or [NaN] itself. *)
Theorem calculateStats_spec (data : list listing) :
  let s := Functional.calculateStats data in
  let totalPrice := Functional.total "price" data in
  let totalRooms := Functional.total "bedrooms" data in
  Functional.count s = List.length data
  /\ Functional.averagePrice s = totalPrice / of_nat (List.length data)
  /\ Functional.avgPricePerRoom s = totalPrice / totalRooms
  /\ Functional.validListings s
     = List.length (filter (fun l => match field l "host_id" with
                                     | VNum x => 0 <? x
                                     | _ => false
                                     end) data)
  /\ is_nan (Functional.averagePrice (Functional.calculateStats [])) = true
  /\ is_nan (Functional.avgPricePerRoom (Functional.calculateStats [])) = true
  /\ (is_zero totalRooms = true ->
      is_nan (Functional.avgPricePerRoom s) = is_nan totalPrice || is_zero totalPrice).
Proof.
  cbv zeta. repeat split.
  intros Hz. cbn [Functional.calculateStats Functional.avgPricePerRoom].
  now apply div_zero_nan.
Qed.

(** C3 as stated fails: one listing priced 100 with no bedroom has a zero
    bedroom total, and the ratio is [Infinity], not [NaN]. *)
Lemma avgPricePerRoom_zero_rooms_infinite :
  let data := [[("price", VNum 100); ("bedrooms", VNum 0)]] in
  is_zero (Functional.total "bedrooms" data) = true
  /\ Functional.avgPricePerRoom (Functional.calculateStats data) = infinity
  /\ is_nan (Functional.avgPricePerRoom (Functional.calculateStats data)) = false.
Proof. cbv zeta. repeat split. Qed.

End Stats.

(** ** Sorting *)

Section Sorting.

Context {A : Type}.
Variable after : A -> A -> bool.

Lemma insert_perm (x : A) (l : list A) : Permutation (Arr.insert after x l) (x :: l).
Proof.
  induction l as [| y l IH]; cbn [Arr.insert]; [reflexivity |].
  destruct (after x y); [| reflexivity].
  rewrite IH. apply perm_swap.
Qed.

Lemma sort_perm (l : list A) : Permutation (Arr.sort after l) l.
Proof.
  induction l as [| x l IH]; cbn [Arr.sort]; [reflexivity |].
  rewrite insert_perm. now constructor.
Qed.

Lemma sort_length (l : list A) : List.length (Arr.sort after l) = List.length l.
Proof. apply Permutation_length, sort_perm. Qed.

Lemma insert_in_order (x : A) (l : list A) :
  HdRel (in_order after) x l -> Arr.insert after x l = x :: l.
Proof.
  intros H. destruct l as [| y l]; [reflexivity |].
  inversion H as [| ? ? Hxy]; subst. cbn [Arr.insert].
  unfold in_order in Hxy. now rewrite Hxy.
Qed.

(** An array that is already in order is left as it is. *)
Lemma sort_sorted_id (l : list A) : Sorted (in_order after) l -> Arr.sort after l = l.
Proof.
  induction 1 as [| x l Hs IH Hhd]; [reflexivity |].
  cbn [Arr.sort]. rewrite IH. now apply insert_in_order.
Qed.

Hypothesis after_asym : forall x y, after x y = true -> after y x = false.

Lemma insert_sorted (x : A) (l : list A) :
  Sorted (in_order after) l -> Sorted (in_order after) (Arr.insert after x l).
Proof.
  induction 1 as [| y l Hs IH Hhd]; cbn [Arr.insert].
  - repeat constructor.
  - destruct (after x y) eqn:Hxy.
    + constructor; [exact IH |].
      destruct l as [| z l]; cbn [Arr.insert].
      * constructor. now apply after_asym.
      * destruct (after x z); constructor.
        -- now inversion Hhd.
        -- now apply after_asym.
    + constructor; [now constructor | now constructor].
Qed.

Lemma sort_sorted (l : list A) : Sorted (in_order after) (Arr.sort after l).
Proof.
  induction l as [| x l IH]; cbn [Arr.sort]; [constructor | now apply insert_sorted].
Qed.

Lemma sort_idempotent (l : list A) :
  Arr.sort after (Arr.sort after l) = Arr.sort after l.
Proof. apply sort_sorted_id, sort_sorted. Qed.

End Sorting.

Lemma In_firstn {A : Type} (n : nat) (l : list A) (x : A) :
  In x (firstn n l) -> In x l.
Proof.
  intros H. rewrite <- (firstn_skipn n l). apply in_or_app. now left.
Qed.


(** ** References *)

Section HeapFacts.

Context {A : Type}.
Variable d : A.

Lemma deref_alloc_new (h : Heap.heap A) (a : A) :
  Heap.deref d (fst (Heap.alloc h a)) (snd (Heap.alloc h a)) = a.
Proof.
  unfold Heap.alloc, Heap.deref. cbn [fst snd].
  rewrite app_nth2 by lia. now rewrite Nat.sub_diag.
Qed.

Lemma deref_alloc_old (h : Heap.heap A) (a : A) (r : nat) :
  (r < List.length h)%nat ->
  Heap.deref d (fst (Heap.alloc h a)) r = Heap.deref d h r.
Proof. intros Hr. unfold Heap.alloc, Heap.deref. cbn [fst]. now apply app_nth1. Qed.

Lemma update_length (h : Heap.heap A) (r : nat) (a : A) :
  List.length (Heap.update h r a) = List.length h.
Proof.
  revert r. induction h as [| x h IH]; intros [| r]; cbn [Heap.update List.length];
    try reflexivity. now rewrite IH.
Qed.

Lemma deref_update_same (h : Heap.heap A) (r : nat) (a : A) :
  (r < List.length h)%nat -> Heap.deref d (Heap.update h r a) r = a.
Proof.
  revert r. induction h as [| x h IH]; intros [| r] Hr; cbn in Hr |- *;
    try lia; try reflexivity.
  apply IH. lia.
Qed.

Lemma deref_update_other (h : Heap.heap A) (r r' : nat) (a : A) :
  r <> r' -> Heap.deref d (Heap.update h r a) r' = Heap.deref d h r'.
Proof.
  revert r r'. induction h as [| x h IH]; intros [| r] [| r'] Hr; cbn;
    try reflexivity; try congruence.
  apply IH. congruence.
Qed.

Lemma update_out_of_range (h : Heap.heap A) (r : nat) (a : A) :
  (List.length h <= r)%nat -> Heap.update h r a = h.
Proof.
  revert r. induction h as [| x h IH]; intros [| r] Hr; cbn in Hr |- *;
    try reflexivity; try lia.
  rewrite IH; [reflexivity | lia].
Qed.

End HeapFacts.

(** ** Ordering *)

Section Order.

Local Open Scope float_scope.

Lemma order_after_asym (property : string) (x y : listing) :
  order_after property x y = true -> order_after property y x = false.
Proof. unfold order_after, Functional.createComparator. apply sub_pos_antisym. Qed.

Lemma handler_order_fresh (st : Functional.arrays) (h : nat) (property : string) :
  snd (Functional.handler_order st h property) = List.length st.
Proof. reflexivity. Qed.

Lemma handler_order_data (st : Functional.arrays) (h : nat) (property : string) :
  let o := Functional.handler_order st h property in
  Functional.data_of (fst o) (snd o)
  = Arr.sort (order_after property) (Functional.data_of st h).
Proof.
  cbv zeta. unfold Functional.handler_order, Functional.data_of, Heap.alloc.
  cbn [fst snd].
  rewrite deref_update_same by (rewrite length_app; cbn; lia).
  pose proof (deref_alloc_new [] st (Heap.deref [] st h)) as Hnew.
  unfold Heap.alloc in Hnew. cbn [fst snd] in Hnew. now rewrite Hnew.
Qed.

Lemma handler_order_frame (st : Functional.arrays) (h : nat) (property : string) (r : nat) :
  (r < List.length st)%nat ->
  Functional.data_of (fst (Functional.handler_order st h property)) r
  = Functional.data_of st r.
Proof.
  intros Hr. unfold Functional.handler_order, Functional.data_of, Heap.alloc.
  cbn [fst snd]. rewrite deref_update_other by lia.
  unfold Heap.deref. now apply app_nth1.
Qed.

(** C9.  Ordering the result of [order] by the same field again gives the
    same sequence of listings. *)
Theorem order_idempotent (st : Functional.arrays) (h : nat) (property : string) :
  let once := Functional.handler_order st h property in
  let twice := Functional.handler_order (fst once) (snd once) property in
  Functional.data_of (fst twice) (snd twice) = Functional.data_of (fst once) (snd once).
Proof.
  cbv zeta. rewrite !handler_order_data.
  apply sort_idempotent, order_after_asym.
Qed.

Example order_scenario_by_price :
  let o := Functional.handler_order [scenario] 0 "price" in
  map (fun l => Functional.getNumber l "price") (Functional.data_of (fst o) (snd o))
  = [50; 100; 200].
Proof. reflexivity. Qed.

(** What [order] returns is in ascending order of the comparator: no
    listing asks to be swapped with its successor. *)
Lemma handler_order_sorted (st : Functional.arrays) (h : nat) (property : string) :
  let o := Functional.handler_order st h property in
  Sorted (in_order (order_after property)) (Functional.data_of (fst o) (snd o))
  /\ Permutation (Functional.data_of (fst o) (snd o)) (Functional.data_of st h).
Proof.
  cbv zeta. rewrite handler_order_data. split.
  - apply sort_sorted, order_after_asym.
  - apply sort_perm.
Qed.

(** The stateful [order] sorts the working array where it stands. *)
Lemma stateful_order_in_place (st : Stateful.state) (property : string) :
  match Stateful.order st property with
  | Return st' =>
      Stateful.filteredListings st' = Stateful.filteredListings st
      /\ Stateful.objects st' = Stateful.objects st
      /\ Stateful.data st' = Stateful.data st
      /\ Stateful.array st' (Stateful.filteredListings st)
         = Arr.sort (fun a b => order_after property (Stateful.row st a) (Stateful.row st b))
             (Stateful.array st (Stateful.filteredListings st))
  | Throw _ => Stateful.array st (Stateful.filteredListings st) = []
  end.
Proof.
  unfold Stateful.order.
  destruct (Stateful.array st (Stateful.filteredListings st)) as [| r rows] eqn:Harr;
    [reflexivity |].
  repeat split. unfold Stateful.array at 1. cbn [Stateful.arrays].
  rewrite deref_update_same; [reflexivity |].
  unfold Stateful.array, Heap.deref in Harr.
  destruct (Nat.lt_ge_cases (Stateful.filteredListings st) (List.length (Stateful.arrays st)))
    as [Hlt | Hge]; [exact Hlt |].
  rewrite nth_overflow in Harr by exact Hge. discriminate.
Qed.

End Order.

(** ** Frames: what filter and order leave untouched *)

Section Frames.

Local Open Scope float_scope.

Lemma handler_filter_spec (st : Functional.arrays) (h : nat) (c : FilterParameters) :
  let o := Functional.handler_filter st h c in
  snd o = List.length st
  /\ Functional.data_of (fst o) (snd o)
     = Functional.filterListings (Functional.data_of st h) c.
Proof.
  cbv zeta. split; [reflexivity |].
  unfold Functional.handler_filter, Functional.data_of. apply deref_alloc_new.
Qed.

Lemma stateful_filter_frame (st : Stateful.state) (c : FilterParameters) :
  match Stateful.filter st c with
  | Return st' =>
      Stateful.objects st' = Stateful.objects st
      /\ Stateful.data st' = Stateful.data st
      /\ Stateful.filteredListings st' = List.length (Stateful.arrays st)
      /\ forall a, (a < List.length (Stateful.arrays st))%nat ->
                   Stateful.array st' a = Stateful.array st a
  | Throw _ => Stateful.data st = None
  end.
Proof.
  unfold Stateful.filter. destruct (Stateful.data st) as [d |]; [| reflexivity].
  cbn. repeat split. intros a Ha. unfold Stateful.array, Heap.deref. cbn.
  now apply app_nth1.
Qed.

(** C8, as the code has it.  In the functional handler [filter] and [order]
    put their result in a fresh array and leave every array that existed
    before, the one they read included, as it was.  The stateful [filter]
    does the same; the stateful [order] keeps the reference of the working
    array and sorts that array in place. *)
Theorem filter_order_frame
  (st : Functional.arrays) (h : nat) (c : FilterParameters) (property : string) (r : nat) :
  (r < List.length st)%nat ->
  (Functional.data_of (fst (Functional.handler_filter st h c)) r = Functional.data_of st r
   /\ snd (Functional.handler_filter st h c) <> r)
  /\ (Functional.data_of (fst (Functional.handler_order st h property)) r
      = Functional.data_of st r
      /\ snd (Functional.handler_order st h property) <> r)
  /\ (forall s : Stateful.state,
         match Stateful.filter s c with
         | Return s' =>
             Stateful.filteredListings s' = List.length (Stateful.arrays s)
             /\ Stateful.objects s' = Stateful.objects s
             /\ forall a, (a < List.length (Stateful.arrays s))%nat ->
                          Stateful.array s' a = Stateful.array s a
         | Throw _ => Stateful.data s = None
         end)
  /\ (forall s : Stateful.state,
         match Stateful.order s property with
         | Return s' =>
             Stateful.filteredListings s' = Stateful.filteredListings s
             /\ Stateful.array s' (Stateful.filteredListings s)
                = Arr.sort (fun a b => order_after property (Stateful.row s a) (Stateful.row s b))
                    (Stateful.array s (Stateful.filteredListings s))
         | Throw _ => Stateful.array s (Stateful.filteredListings s) = []
         end).
Proof.
  intros Hr. repeat split.
  - unfold Functional.handler_filter, Functional.data_of. now apply deref_alloc_old.
  - cbn. lia.
  - now apply handler_order_frame.
  - rewrite handler_order_fresh. lia.
  - intros s. pose proof (stateful_filter_frame s c) as H.
    destruct (Stateful.filter s c); [| exact H]. tauto.
  - intros s. pose proof (stateful_order_in_place s property) as H.
    destruct (Stateful.order s property); [| exact H]. tauto.
Qed.

End Frames.

(** ** Property lists *)

Section PropsFacts.

Context {V : Type}.

Lemma get_None_iff (o : Obj.props V) (k : string) :
  Obj.get o k = None <-> ~ In k (keys o).
Proof.
  induction o as [| [k' v] o IH]; cbn; [tauto |].
  destruct (String.eqb_spec k' k) as [-> | Hne].
  - split; [discriminate | tauto].
  - rewrite IH. tauto.
Qed.

Lemma get_Some_In (o : Obj.props V) (k : string) (v : V) :
  Obj.get o k = Some v -> In (k, v) o.
Proof.
  induction o as [| [k' v'] o IH]; cbn; [discriminate |].
  destruct (String.eqb_spec k' k) as [-> | Hne]; intros H.
  - injection H as ->. now left.
  - right. now apply IH.
Qed.

Lemma In_get_NoDup (o : Obj.props V) (k : string) (v : V) :
  NoDup (keys o) -> In (k, v) o -> Obj.get o k = Some v.
Proof.
  induction o as [| [k' v'] o IH]; cbn; [tauto |].
  intros Hnd [Heq | Hin]; inversion Hnd as [| ? ? Hnotin Hnd']; subst.
  - injection Heq as -> ->. now rewrite String.eqb_refl.
  - destruct (String.eqb_spec k' k) as [-> | Hne]; [| now apply IH].
    exfalso. apply Hnotin. change k with (fst (k, v)). now apply in_map.
Qed.

(** Reading a property does not depend on the enumeration order. *)
Lemma get_perm (o o' : Obj.props V) (k : string) :
  NoDup (keys o) -> Permutation o o' -> Obj.get o' k = Obj.get o k.
Proof.
  intros Hnd Hp.
  assert (Hnd' : NoDup (keys o')).
  { eapply Permutation_NoDup; [apply Permutation_map, Hp | exact Hnd]. }
  destruct (Obj.get o k) as [v |] eqn:Hget.
  - apply In_get_NoDup; [exact Hnd' |].
    eapply Permutation_in; [exact Hp | now apply get_Some_In].
  - apply get_None_iff. apply get_None_iff in Hget. intros Hin. apply Hget.
    eapply Permutation_in; [apply Permutation_map, Permutation_sym, Hp | exact Hin].
Qed.

Lemma set_absent (o : Obj.props V) (k : string) (v : V) :
  Obj.get o k = None -> Obj.set o k v = (o ++ [(k, v)])%list.
Proof.
  induction o as [| [k' v'] o IH]; cbn; [reflexivity |].
  destruct (String.eqb k' k); [discriminate |].
  intros H. now rewrite IH.
Qed.

Lemma set_present_keys (o : Obj.props V) (k : string) (v d : V) :
  Obj.get o k = Some d -> keys (Obj.set o k v) = keys o.
Proof.
  induction o as [| [k' v'] o IH]; cbn; [discriminate |].
  destruct (String.eqb k' k); [reflexivity |].
  intros H. cbn. f_equal. now apply IH.
Qed.

Lemma set_Forall (P : string * V -> Prop) (o : Obj.props V) (k : string) (v : V) :
  Forall P o -> P (k, v) -> Forall P (Obj.set o k v).
Proof.
  intros Ho Hv. induction Ho as [| [k' v'] o Hk Ho IH]; cbn.
  - now constructor.
  - destruct (String.eqb_spec k' k) as [-> | Hne]; constructor; assumption.
Qed.

Lemma get_set_same (o : Obj.props V) (k : string) (v : V) :
  Obj.get (Obj.set o k v) k = Some v.
Proof.
  induction o as [| [k' v'] o IH]; cbn.
  - now rewrite String.eqb_refl.
  - destruct (String.eqb k' k) eqn:Hk; cbn; now rewrite Hk.
Qed.

Lemma get_set_other (o : Obj.props V) (k k' : string) (v : V) :
  k <> k' -> Obj.get (Obj.set o k v) k' = Obj.get o k'.
Proof.
  intros Hne. induction o as [| [k0 v0] o IH]; cbn.
  - destruct (String.eqb_spec k k'); [contradiction | reflexivity].
  - destruct (String.eqb_spec k0 k) as [-> | Hk]; cbn.
    + destruct (String.eqb_spec k k'); [contradiction | reflexivity].
    + now rewrite IH.
Qed.

Lemma set_set_same (o : Obj.props V) (k : string) (v v' : V) :
  Obj.set (Obj.set o k v) k v' = Obj.set o k v'.
Proof.
  induction o as [| [k0 v0] o IH]; cbn.
  - now rewrite String.eqb_refl.
  - destruct (String.eqb k0 k) eqn:Hk; cbn; rewrite Hk; [reflexivity | now rewrite IH].
Qed.

(** [Object.entries] lists every property once. *)
Lemma entries_perm (o : Obj.props V) : Permutation (entries o) o.
Proof.
  unfold entries.
  rewrite (Permutation_map snd (sort_perm _ (Obj.indexed o))).
  induction o as [| kv o IH]; [reflexivity |].
  unfold Obj.indexed, Obj.is_named in *. cbn [flat_map filter].
  destruct (Obj.array_index (fst kv)) as [i |]; cbn [map app].
  - now constructor.
  - apply Permutation_sym, Permutation_cons_app, Permutation_sym, IH.
Qed.

End PropsFacts.

(** ** The host ranking *)

Section Ranking.

Lemma sum_counts_app (o o' : list (string * HostData)) :
  sum_counts (o ++ o') = sum_counts o + sum_counts o'.
Proof. induction o as [| kv o IH]; cbn; [reflexivity | rewrite IH; lia]. Qed.

Lemma sum_counts_perm (o o' : list (string * HostData)) :
  Permutation o o' -> sum_counts o = sum_counts o'.
Proof. induction 1; cbn; lia. Qed.

Lemma set_present_sum (o : Obj.props HostData) (k : string) (v d : HostData) :
  Obj.get o k = Some d ->
  sum_counts (Obj.set o k v) = sum_counts o - hcount d + hcount v.
Proof.
  induction o as [| [k' v'] o IH]; cbn; [discriminate |].
  destruct (String.eqb k' k); cbn.
  - intros H. injection H as ->. lia.
  - intros H. rewrite (IH H). lia.
Qed.


Lemma next_count_value (acc : Obj.props HostData) (id : string) :
  Functional.next_count acc id
  = match Obj.get acc id with Some d => hcount d + 1 | None => 1 end.
Proof.
  unfold Functional.next_count. destruct (Obj.get acc id) as [d |]; [| reflexivity].
  destruct (Z.eqb_spec (hcount d) 0) as [-> | _]; reflexivity.
Qed.

Lemma rank_inv_perm (seen : list listing) (acc acc' : Obj.props HostData) :
  Permutation acc acc' -> rank_inv seen acc -> rank_inv seen acc'.
Proof.
  intros Hp (Hnd & Hk & Hs & Hpos). repeat split.
  - eapply Permutation_NoDup; [apply Permutation_map, Hp | exact Hnd].
  - intros Hin. apply Hk.
    eapply Permutation_in; [apply Permutation_map, Permutation_sym, Hp | exact Hin].
  - intros Hin. apply Hk in Hin.
    eapply Permutation_in; [apply Permutation_map, Hp | exact Hin].
  - rewrite <- Hs. symmetry. now apply sum_counts_perm.
  - eapply Permutation_Forall; eassumption.
Qed.

Lemma rank_step_inv (seen : list listing) (acc : Obj.props HostData) (l : listing) :
  rank_inv seen acc -> rank_inv (seen ++ [l]) (Functional.rank_step acc l).
Proof.
  intros Hinv. unfold Functional.rank_step. rewrite next_count_value.
  assert (Hget : Obj.get (entries acc) (host_key l) = Obj.get acc (host_key l)).
  { apply get_perm; [apply Hinv | apply Permutation_sym, entries_perm]. }
  apply (rank_inv_perm seen acc (entries acc)) in Hinv;
    [| apply Permutation_sym, entries_perm].
  rewrite <- Hget. clear Hget.
  destruct Hinv as (Hnd & Hk & Hs & Hpos).
  set (e := entries acc) in *. set (k := host_key l).
  assert (Hseen : forall x, In x (map host_key (seen ++ [l])) <-> In x (keys e) \/ x = k).
  { intros x. rewrite map_app, in_app_iff, <- Hk. cbn. intuition. }
  assert (Hlen : Z.of_nat (List.length (seen ++ [l])) = sum_counts e + 1).
  { rewrite length_app. cbn. lia. }
  unfold rank_inv. rewrite Hlen. clear Hlen.
  destruct (Obj.get e k) as [d |] eqn:Hget.
  - assert (Hin : In k (keys e)).
    { destruct (in_dec string_dec k (keys e)) as [Hin | Hnin]; [exact Hin |].
      apply get_None_iff in Hnin. congruence. }
    rewrite (set_present_keys _ _ _ _ Hget), (set_present_sum _ _ _ _ Hget).
    repeat split.
    + exact Hnd.
    + intros H. apply Hseen. now left.
    + intros H. apply Hseen in H. destruct H as [H | ->]; assumption.
    + cbn [hcount]. lia.
    + apply set_Forall; [exact Hpos |]. cbn.
      apply get_Some_In in Hget. rewrite Forall_forall in Hpos.
      specialize (Hpos _ Hget). cbn in Hpos. lia.
  - rewrite (set_absent _ _ _ Hget). apply get_None_iff in Hget.
    unfold keys in *. rewrite map_app, sum_counts_app. cbn [map fst snd sum_counts hcount].
    repeat split.
    + apply NoDup_app; [exact Hnd | repeat constructor; cbn; tauto |].
      intros x Hx [<- | []]. contradiction.
    + intros H. apply Hseen. apply in_app_or in H.
      destruct H as [H | [<- | []]]; [now left | now right].
    + intros H. apply Hseen in H. apply in_or_app.
      destruct H as [H | ->]; [now left | right; now left].
    + apply Forall_app. split; [exact Hpos | repeat constructor; cbn; lia].
Qed.

Lemma rank_fold_inv (data seen : list listing) (acc : Obj.props HostData) :
  rank_inv seen acc ->
  rank_inv (seen ++ data) (fold_left Functional.rank_step data acc).
Proof.
  revert seen acc. induction data as [| l data IH]; intros seen acc Hinv; cbn [fold_left].
  - now rewrite app_nil_r.
  - replace (seen ++ l :: data)%list with ((seen ++ [l]) ++ data)%list
      by now rewrite <- app_assoc.
    apply IH. now apply rank_step_inv.
Qed.

Lemma rankHosts_inv (data : list listing) :
  rank_inv data (Functional.rankHosts data).
Proof.
  unfold Functional.rankHosts.
  eapply rank_inv_perm; [apply Permutation_sym, sort_perm |].
  eapply rank_inv_perm; [apply Permutation_sym, entries_perm |].
  apply (rank_fold_inv data [] []).
  repeat split; cbn; try constructor; tauto.
Qed.


Lemma by_count_desc_asym (x y : string * HostData) :
  by_count_desc x y = true -> by_count_desc y x = false.
Proof. unfold by_count_desc. rewrite Z.ltb_lt, Z.ltb_ge. lia. Qed.

Lemma rankHosts_sorted (data : list listing) :
  Sorted count_desc (Functional.rankHosts data).
Proof.
  unfold Functional.rankHosts.
  pose proof (sort_sorted by_count_desc by_count_desc_asym
                (entries (fold_left Functional.rank_step data []))) as H.
  induction H as [| kv o Hs IH Hhd]; constructor; [exact IH |].
  destruct Hhd as [| kv' o' Hrel]; constructor.
  unfold in_order, by_count_desc in Hrel. unfold count_desc.
  apply Z.ltb_ge in Hrel. lia.
Qed.


End Ranking.

(** ** The two filters compared *)

Section Agreement.

Local Open Scope float_scope.

Lemma functional_passes_stateful (min max v : number) :
  is_nan max = false -> Functional.passes min max v = Stateful.passes min max v.
Proof.
  intros Hmax. unfold Functional.passes, Stateful.passes, truthy.
  now rewrite Hmax, negb_involutive.
Qed.

(** C10, as the code has it.  With no [NaN] maximum, the two filters select
    the same listings of every dataset on which integer parsing and the
    numeric extractor read the same bedroom count, and unstripped float
    parsing and the numeric extractor the same review score. *)
Theorem filters_agree (data : list listing) (c : FilterParameters) :
  criteria_ok c ->
  Forall (fun l => Stateful.bedrooms_of l = Functional.getNumber l "bedrooms"
                   /\ Stateful.score_of l = Functional.getNumber l "review_scores_rating")
         data ->
  List.filter (Stateful.keeps c) data = Functional.filterListings data c.
Proof.
  intros (Hp & Hr & Hs) Hdata. unfold Functional.filterListings.
  apply filter_ext_in. intros l Hl.
  rewrite Forall_forall in Hdata. destruct (Hdata l Hl) as [Hb Hsc].
  unfold Stateful.keeps, Functional.keeps.
  rewrite price_of_getNumber, Hb, Hsc.
  now rewrite !functional_passes_stateful.
Qed.

Lemma filters_agree_witness :
  List.filter (Stateful.keeps (rooms_between 2 3)) scenario
  = Functional.filterListings scenario (rooms_between 2 3).
Proof.
  apply filters_agree.
  - repeat split.
  - repeat constructor.
Defined.

(** C10 as stated fails: a listing with one and a half bedrooms passes a
    one-to-one bedroom range in the stateful filter, which reads [1], and
    not in the functional one, which reads [1.5]. *)
Lemma filters_disagree_on_fraction :
  let l := [("bedrooms", VNum 1.5)] in
  Stateful.keeps (rooms_between 1 1) l = true
  /\ Functional.keeps (rooms_between 1 1) l = false.
Proof. cbv zeta. split; vm_compute; reflexivity. Qed.

(** The sentinel tests differ too: a [NaN] maximum lets every listing
    through the functional filter and none through the stateful one. *)
Example filters_disagree_on_nan_max :
  let c := price_between 0 NaN in
  Functional.filterListings scenario c = scenario
  /\ List.filter (Stateful.keeps c) scenario = [].
Proof. cbv zeta. split; vm_compute; reflexivity. Qed.


Example filterListings_price_band :
  Functional.filterListings scenario (price_between 60 150)
  = [row_of (VStr "$100") (VNum 1) (VNum 3) (VNum 1) "A"].
Proof. vm_compute. reflexivity. Qed.

End Agreement.

(** ** Ranking: names and ties *)

Section RankingNames.

Local Open Scope float_scope.

(** C6 at its failing inputs.  Two listings of host 1 named A then B: the
    functional [rankHosts] reports the last name, B, where the stateful one
    keeps the first.  Two hosts with one listing each, 7 met before 3: both
    rankings list 3 first, since numeric keys are enumerated in ascending
    order whatever the order of arrival.  The number 1 and the text "1"
    are one group. *)
Theorem rankHosts_names_and_ties :
  Functional.rankHosts [hosted (VNum 1) "A"; hosted (VNum 1) "B"]
  = [("1", {| name := VStr "B"; hcount := 2 |})]
  /\ Stateful.rankHosts (filtered [hosted (VNum 1) "A"; hosted (VNum 1) "B"] no_filter)
     = [("1", {| name := VStr "A"; hcount := 2 |})]
  /\ Functional.rankHosts [hosted (VNum 7) "X"; hosted (VNum 3) "Y"]
     = [("3", {| name := VStr "Y"; hcount := 1 |});
        ("7", {| name := VStr "X"; hcount := 1 |})]
  /\ Stateful.rankHosts (filtered [hosted (VNum 7) "X"; hosted (VNum 3) "Y"] no_filter)
     = [("3", {| name := VStr "Y"; hcount := 1 |});
        ("7", {| name := VStr "X"; hcount := 1 |})]
  /\ Functional.rankHosts [hosted (VNum 1) "A"; hosted (VStr "1") "B"]
     = [("1", {| name := VStr "B"; hcount := 2 |})].
Proof. repeat split; vm_compute; reflexivity. Qed.

(** Keys that are not array indices do keep their order of arrival. *)
Example rankHosts_named_keys_in_arrival_order :
  Functional.rankHosts [hosted (VStr "zed") "X"; hosted (VStr "abe") "Y"]
  = [("zed", {| name := VStr "X"; hcount := 1 |});
     ("abe", {| name := VStr "Y"; hcount := 1 |})].
Proof. vm_compute. reflexivity. Qed.

Example rankHosts_scenario :
  Functional.handler_rankHosts [scenario] 0 Functional.default_limit
  = [("1", {| name := VStr "A"; hcount := 2 |});
     ("2", {| name := VStr "B"; hcount := 1 |})].
Proof. vm_compute. reflexivity. Qed.

End RankingNames.

(** ** The empty dataset *)

Section EmptyDataset.

Local Open Scope float_scope.


(** The functional stages on an empty array: [NaN] averages, no ranking,
    an empty ordered array. *)
Lemma functional_stages_accept_empty
  (st : Functional.arrays) (h : nat) (limit : nat) (property : string) :
  Functional.data_of st h = [] ->
  let s := Functional.handler_computeStats st h in
  let o := Functional.handler_order st h property in
  Functional.count s = 0%nat
  /\ is_nan (Functional.averagePrice s) = true
  /\ is_nan (Functional.avgPricePerRoom s) = true
  /\ Functional.handler_rankHosts st h limit = []
  /\ Functional.data_of (fst o) (snd o) = [].
Proof.
  intros He. cbv zeta. rewrite handler_order_data.
  unfold Functional.handler_computeStats, Functional.handler_rankHosts.
  rewrite He. repeat split. apply firstn_nil.
Qed.

(** C7 at its failing input.  A price band that no listing of the scenario
    meets leaves the stateful handler with an empty working array: its
    [computeStats] prints [NaN] averages and its [rankHosts] nothing, but
    its [order] throws a TypeError instead of returning an empty dataset.
    The functional handler orders the same empty result without failing. *)
Theorem stateful_order_fails_on_empty :
  let st := filtered scenario (price_between 500 1000) in
  let empty := Functional.handler_filter [scenario] 0 (price_between 500 1000) in
  Stateful.working st = []
  /\ is_nan (Stateful.averagePrice (snd (Stateful.computeStats st))) = true
  /\ is_nan (Stateful.avgPricePerRoom (snd (Stateful.computeStats st))) = true
  /\ Stateful.rankHosts (fst (Stateful.computeStats st)) = []
  /\ Stateful.order (fst (Stateful.computeStats st)) "price" = Throw TypeError
  /\ Functional.data_of (fst empty) (snd empty) = []
  /\ Functional.data_of
       (fst (Functional.handler_order (fst empty) (snd empty) "price"))
       (snd (Functional.handler_order (fst empty) (snd empty) "price")) = [].
Proof. cbv zeta. repeat split; vm_compute; reflexivity. Qed.

End EmptyDataset.

(** ** Frames: the counterexample and the witness *)

Section FrameExamples.

Local Open Scope float_scope.

(** C8 as stated fails: the stateful [order] hands back the very array it
    was given, with its rows in another order. *)
Lemma stateful_order_mutates_input :
  let st := filtered scenario no_filter in
  exists st',
    Stateful.order st "price" = Return st'
    /\ Stateful.filteredListings st' = Stateful.filteredListings st
    /\ Stateful.array st (Stateful.filteredListings st) = [0; 1; 2]%nat
    /\ Stateful.array st' (Stateful.filteredListings st) = [2; 1; 0]%nat.
Proof. cbv zeta. eexists. repeat split. Qed.

Lemma filter_order_frame_witness :
  (0 < List.length [scenario])%nat
  /\ (Functional.data_of (fst (Functional.handler_filter [scenario] 0 (price_between 60 150))) 0
      = scenario)
  /\ (Functional.data_of (fst (Functional.handler_order [scenario] 0 "price")) 0
      = scenario).
Proof.
  pose proof (filter_order_frame [scenario] 0%nat (price_between 60 150) "price" 0%nat) as H.
  destruct H as ((Hf & _) & (Ho & _) & _); [cbn; lia |].
  split; [cbn; lia | split; [exact Hf | exact Ho]].
Defined.

End FrameExamples.

(** ** The price per room *)

Section PricePerRoom.

Local Open Scope float_scope.

Lemma SFcompare_antisym (x y : spec_float) :
  SFcompare y x = match SFcompare x y with
                  | Some c => Some (CompOpp c)
                  | None => None
                  end.
Proof.
  destruct x as [[] | [] | | [] mx ex], y as [[] | [] | | [] my ey]; try reflexivity;
    cbn [SFcompare]; rewrite (Z.compare_antisym ex ey);
    destruct (ex ?= ey)%Z; cbn [CompOpp]; try reflexivity;
    pose proof (Pos.compare_cont_antisym mx my Eq) as H; cbn [CompOpp] in H;
    rewrite <- H; destruct (Pos.compare_cont Eq mx my); reflexivity.
Qed.

Lemma one_le_pos (r : float) : (1 <=? r) = true -> sf_pos (Prim2SF r) = true.
Proof.
  rewrite FloatAxioms.leb_spec. change (Prim2SF 1) with (S754_finite false 4503599627370496 (-52)).
  destruct (Prim2SF r) as [s | s | | s m e]; try destruct s; cbn; congruence.
Qed.

(** The divisor [rooms || 1] is [Math.max(rooms, 1)] when there is no
    bedroom. *)
Lemma divisor_zero (r : float) :
  is_zero r = true -> or_else r 1 = 1 /\ Math_max r 1 = 1.
Proof.
  intros Hz. split.
  - unfold or_else, truthy. rewrite Hz, orb_true_r. reflexivity.
  - unfold Math_max. rewrite is_nan_spec, FloatAxioms.ltb_spec.
    rewrite is_zero_spec in Hz.
    change (Prim2SF 1) with (S754_finite false 4503599627370496 (-52)).
    destruct (Prim2SF r) as [s | s | | s m e]; try discriminate. reflexivity.
Qed.

(** And when there is at least one. *)
Lemma divisor_at_least_one (r : float) :
  (1 <=? r) = true -> or_else r 1 = r /\ Math_max r 1 = r.
Proof.
  intros Hle. pose proof (one_le_pos r Hle) as Hpos.
  assert (Hnan : is_nan r = false).
  { rewrite is_nan_spec. destruct (Prim2SF r) as [s | s | | s m e]; try destruct s;
      cbn in Hpos |- *; congruence. }
  assert (Hzero : is_zero r = false).
  { rewrite is_zero_spec. destruct (Prim2SF r) as [s | s | | s m e]; try destruct s;
      cbn in Hpos |- *; congruence. }
  assert (Hlt : (r <? 1) = false).
  { rewrite FloatAxioms.ltb_spec. rewrite FloatAxioms.leb_spec in Hle.
    unfold SFltb, SFleb in *. rewrite SFcompare_antisym.
    destruct (SFcompare (Prim2SF 1) (Prim2SF r)) as [[] |]; cbn; congruence. }
  assert (Hsign : get_sign r = false).
  { unfold get_sign. rewrite Hzero, FloatAxioms.ltb_spec.
    change (Prim2SF 0) with (S754_zero false).
    destruct (Prim2SF r) as [s | s | | s m e]; try destruct s;
      cbn in Hpos |- *; congruence. }
  split.
  - unfold or_else, truthy. now rewrite Hnan, Hzero.
  - unfold Math_max. rewrite Hnan, Hlt, Hsign. cbn.
    destruct (1 <? r); reflexivity.
Qed.

(** [hundredths] is the integer nearest to a hundred times the magnitude,
    the larger of the two on a tie: rounding half away from zero. *)
Lemma hundredths_nearest (m : positive) (e : Z) :
  (e < 0)%Z ->
  let n := hundredths m e in
  (2 * n * 2 ^ (- e) <= 200 * Z.pos m + 2 ^ (- e) < (2 * n + 2) * 2 ^ (- e))%Z.
Proof.
  intros He. cbv zeta. unfold hundredths.
  destruct (Z.leb_spec 0 e) as [Hge | _]; [lia |].
  assert (Hp : (0 < 2 ^ (- e))%Z) by (apply Z.pow_pos_nonneg; lia).
  set (d := (2 ^ (- e))%Z) in *.
  pose proof (Z.div_mod (200 * Z.pos m + d) (2 * d) ltac:(lia)) as Hdm.
  pose proof (Z.mod_pos_bound (200 * Z.pos m + d) (2 * d) ltac:(lia)) as Hm.
  nia.
Qed.

Lemma field_set_other (l : listing) (k k' : string) (v : value) :
  k <> k' -> field (Obj.set l k v) k' = field l k'.
Proof. intros Hne. unfold field. now rewrite get_set_other. Qed.

Lemma price_per_room_annotate (l : listing) :
  Stateful.price_per_room (annotate l) = Stateful.price_per_room l.
Proof.
  unfold Stateful.price_per_room, Stateful.price_of, Stateful.bedrooms_of, annotate.
  rewrite !field_set_other by discriminate. reflexivity.
Qed.

Lemma annotate_idempotent (l : listing) : annotate (annotate l) = annotate l.
Proof.
  unfold annotate at 1. rewrite price_per_room_annotate.
  unfold annotate. apply set_set_same.
Qed.

Lemma stats_fold_objects (rows : list nat) (objs : Heap.heap listing) (tp tr : number) :
  fst (fst (fold_left Stateful.stats_step rows (objs, tp, tr)))
  = fold_left annotate_at rows objs.
Proof.
  revert objs tp tr. induction rows as [| r rows IH]; intros objs tp tr; [reflexivity |].
  cbn [fold_left]. unfold Stateful.stats_step at 2. now rewrite IH.
Qed.

Lemma annotate_fold (rows : list nat) (objs : Heap.heap listing) (r : nat) :
  (r < List.length objs)%nat ->
  Heap.deref [] (fold_left annotate_at rows objs) r
  = if in_dec Nat.eq_dec r rows then annotate (Heap.deref [] objs r)
    else Heap.deref [] objs r.
Proof.
  revert objs. induction rows as [| r0 rows IH]; intros objs Hr; [reflexivity |].
  cbn [fold_left]. rewrite IH by (unfold annotate_at; now rewrite update_length).
  unfold annotate_at.
  destruct (Nat.eq_dec r0 r) as [-> | Hne].
  - rewrite deref_update_same by exact Hr.
    destruct (in_dec Nat.eq_dec r (r :: rows)) as [_ | Hn]; [| exfalso; apply Hn; now left].
    destruct (in_dec Nat.eq_dec r rows); [apply annotate_idempotent | reflexivity].
  - rewrite deref_update_other by exact Hne.
    destruct (in_dec Nat.eq_dec r rows) as [Hin | Hnin];
      destruct (in_dec Nat.eq_dec r (r0 :: rows)) as [Hin' | Hnin']; try reflexivity.
    + exfalso. apply Hnin'. now right.
    + exfalso. destruct Hin' as [-> | Hin']; [now apply Hne | now apply Hnin].
Qed.

(** C4, as the code has it.  The stateful [computeStats] gives every row
    of the working array a [price_per_room] field holding, as text with two
    decimals, the price divided by [rooms || 1], where [rooms] is the
    integer-parsed bedroom count; rows outside the working array are left
    alone.  The divisor is [Math.max(rooms, 1)] when [rooms] is zero or at
    least one.  The two decimals round the magnitude to the nearest
    hundredth, a tie going away from zero.  Price 100 with no bedroom
    gives ["100.00"]. *)
Theorem computeStats_annotates (st : Stateful.state) (r : nat) :
  (r < List.length (Stateful.objects st))%nat ->
  let st' := fst (Stateful.computeStats st) in
  let l := Stateful.row st r in
  let rooms := Stateful.bedrooms_of l in
  (In r (Stateful.array st (Stateful.filteredListings st)) ->
   Stateful.row st' r
   = Obj.set l "price_per_room"
       (VStr (toFixed2 (Stateful.price_of l / or_else rooms 1))))
  /\ (~ In r (Stateful.array st (Stateful.filteredListings st)) ->
      Stateful.row st' r = l)
  /\ (is_zero rooms = true \/ (1 <=? rooms) = true -> or_else rooms 1 = Math_max rooms 1)
  /\ (forall (x : number) (s : bool) (m : positive) (e : Z),
        Prim2SF x = S754_finite s m e -> (1e21 <=? abs x) = false ->
        toFixed2 x = ((if s then "-" else EmptyString) ++ two_decimals (hundredths m e))%string)
  /\ (forall (m : positive) (e : Z), (e < 0)%Z ->
        (2 * hundredths m e * 2 ^ (- e) <= 200 * Z.pos m + 2 ^ (- e)
         < (2 * hundredths m e + 2) * 2 ^ (- e))%Z)
  /\ Stateful.price_per_room [("price", VNum 100); ("bedrooms", VNum 0)] = "100.00".
Proof.
  intros Hr. cbv zeta.
  assert (Hrow : Stateful.row (fst (Stateful.computeStats st)) r
                 = if in_dec Nat.eq_dec r (Stateful.array st (Stateful.filteredListings st))
                   then annotate (Stateful.row st r) else Stateful.row st r).
  { unfold Stateful.computeStats, Stateful.row.
    pose proof (stats_fold_objects (Stateful.array st (Stateful.filteredListings st))
                  (Stateful.objects st) 0 0) as Hfold.
    destruct (fold_left Stateful.stats_step _ _) as [[objs tp] tr].
    cbn [fst Stateful.objects] in *. rewrite Hfold. now apply annotate_fold. }
  split; [| split; [| split; [| split; [| split; [| reflexivity]]]]].
  - intros Hin. rewrite Hrow.
    destruct (in_dec Nat.eq_dec r _); [reflexivity | contradiction].
  - intros Hnin. rewrite Hrow.
    destruct (in_dec Nat.eq_dec r _); [contradiction | reflexivity].
  - intros [Hz | Hle].
    + destruct (divisor_zero _ Hz) as [-> ->]. reflexivity.
    + destruct (divisor_at_least_one _ Hle) as [-> ->]. reflexivity.
  - intros x s m e Hx Hbig. unfold toFixed2. now rewrite Hx, Hbig.
  - intros m e He. apply (hundredths_nearest m e He).
Qed.

(** C4 as stated fails: with a bedroom count of -2 the code divides by -2,
    not by [max(-2, 1) = 1], and stores ["-50.00"] where the claim has
    ["100.00"]. *)
Lemma price_per_room_negative_rooms :
  let l := [("price", VNum 100); ("bedrooms", VNum (-2))] in
  let st' := fst (Stateful.computeStats (filtered [l] no_filter)) in
  field (Stateful.row st' 0) "price_per_room" = VStr "-50.00"
  /\ toFixed2 (Functional.getNumber l "price" / Math_max (Functional.getNumber l "bedrooms") 1)
     = "100.00".
Proof. cbv zeta. split; vm_compute; reflexivity. Qed.

Lemma computeStats_annotates_witness :
  let st := filtered scenario no_filter in
  (0 < List.length (Stateful.objects st))%nat
  /\ Stateful.row (fst (Stateful.computeStats st)) 0
     = Obj.set (Stateful.row st 0) "price_per_room" (VStr "100.00").
Proof.
  cbv zeta. split; [cbn; lia |].
  pose proof (computeStats_annotates (filtered scenario no_filter) 0%nat) as H.
  destruct H as (Hset & _); [cbn; lia |].
  rewrite Hset; [reflexivity | cbn; tauto].
Defined.

(** The functional handler's [computeStats] only reads: it returns the
    statistics and no listing gains a field. *)
Example scenario_stats :
  let s := Functional.calculateStats scenario in
  Functional.count s = 3%nat
  /\ toFixed2 (Functional.averagePrice s) = "116.67"
  /\ Functional.avgPricePerRoom s = 87.5
  /\ Functional.validListings s = 3%nat.
Proof. cbv zeta. repeat split. Qed.

(** The first script stores the ratio under another name and rounds with
    [Math.round]. *)
Example script_avg_price :
  Script.avg_price [("price", VNum 100); ("bedrooms", VNum 0)] = 100.
Proof. reflexivity. Qed.

End PricePerRoom.

(** ** Which name a ranking entry carries *)

Section RankNames.

Lemma named_after_last_snoc (seen : list listing) (l0 : listing) (k : string) (d : HostData) :
  k <> host_key l0 -> named_after_last seen k d -> named_after_last (seen ++ [l0]) k d.
Proof.
  intros Hne (pre & l & post & -> & Hk & Hpost & Hname).
  exists pre, l, (post ++ [l0])%list. repeat split; try assumption.
  - now rewrite <- app_assoc.
  - rewrite map_app, in_app_iff. cbn. intros [H | [H | []]]; [now apply Hpost | congruence].
Qed.

Lemma named_after_first_snoc (seen : list listing) (l0 : listing) (k : string) (d : HostData) :
  named_after_first seen k d -> named_after_first (seen ++ [l0]) k d.
Proof.
  intros (pre & l & post & -> & Hk & Hpre & Hname).
  exists pre, l, (post ++ [l0])%list. repeat split; try assumption.
  now rewrite <- app_assoc.
Qed.

Lemma functional_fold_names (data seen : list listing) (acc : Obj.props HostData) :
  rank_inv seen acc ->
  (forall k d, Obj.get acc k = Some d -> named_after_last seen k d) ->
  forall k d, Obj.get (fold_left Functional.rank_step data acc) k = Some d ->
              named_after_last (seen ++ data) k d.
Proof.
  revert seen acc. induction data as [| l0 data IH]; intros seen acc Hinv Hnames k d;
    cbn [fold_left].
  - rewrite app_nil_r. apply Hnames.
  - replace (seen ++ l0 :: data)%list with ((seen ++ [l0]) ++ data)%list
      by now rewrite <- app_assoc.
    apply IH; [now apply rank_step_inv |]. clear k d. intros k d.
    unfold Functional.rank_step.
    destruct (string_dec (host_key l0) k) as [<- | Hne].
    + rewrite get_set_same. intros H. injection H as <-.
      exists seen, l0, []. repeat split. cbn. tauto.
    + rewrite get_set_other by exact Hne.
      rewrite (get_perm acc (entries acc)); [| apply Hinv | apply Permutation_sym, entries_perm].
      intros H. apply named_after_last_snoc; [congruence | now apply Hnames].
Qed.

(** In the functional ranking every entry carries the name of the last
    listing of its host. *)
Lemma functional_rank_last_name (data : list listing) (k : string) (d : HostData) :
  In (k, d) (Functional.rankHosts data) -> named_after_last data k d.
Proof.
  intros Hin. unfold Functional.rankHosts in Hin.
  apply (Permutation_in _ (sort_perm _ _)) in Hin.
  apply (Permutation_in _ (entries_perm _)) in Hin.
  assert (Hinv : rank_inv data (fold_left Functional.rank_step data [])).
  { apply (rank_fold_inv data [] []). repeat split; cbn; try constructor; tauto. }
  apply (functional_fold_names data [] []) with (k := k) (d := d).
  - repeat split; cbn; try constructor; tauto.
  - cbn. discriminate.
  - apply In_get_NoDup; [apply Hinv | exact Hin].
Qed.

Lemma stateful_step_inv (seen : list listing) (acc : Obj.props HostData) (l0 : listing) :
  stateful_inv seen acc -> stateful_inv (seen ++ [l0]) (Stateful.rank_step acc l0).
Proof.
  intros (Hnd & Hk & Hnames). unfold Stateful.rank_step.
  set (k0 := host_key l0).
  assert (Hseen : forall x, In x (map host_key (seen ++ [l0])) <-> In x (keys acc) \/ x = k0).
  { intros x. rewrite map_app, in_app_iff, <- Hk. cbn. intuition. }
  destruct (Obj.get acc k0) as [d0 |] eqn:Hget.
  - assert (Hin : In k0 (keys acc)).
    { destruct (in_dec string_dec k0 (keys acc)) as [Hin | Hnin]; [exact Hin |].
      apply get_None_iff in Hnin. congruence. }
    repeat split.
    + now rewrite (set_present_keys _ _ _ _ Hget).
    + rewrite (set_present_keys _ _ _ _ Hget). intros H. apply Hseen. now left.
    + rewrite (set_present_keys _ _ _ _ Hget). intros H. apply Hseen in H.
      destruct H as [H | ->]; assumption.
    + intros k d. destruct (string_dec k0 k) as [<- | Hne].
      * rewrite get_set_same. intros H. injection H as <-.
        apply named_after_first_snoc.
        destruct (Hnames _ _ Hget) as (pre & l & post & Hd & Hkl & Hpre & Hname).
        exists pre, l, post. repeat split; assumption.
      * rewrite get_set_other by exact Hne. intros H.
        apply named_after_first_snoc. now apply Hnames.
  - rewrite (set_absent _ _ _ Hget). pose proof Hget as Hnone.
    apply get_None_iff in Hget. unfold stateful_inv, keys in *.
    rewrite map_app. cbn [map fst].
    repeat split.
    + apply NoDup_app; [exact Hnd | repeat constructor; cbn; tauto |].
      intros x Hx [<- | []]. contradiction.
    + intros H. apply Hseen. apply in_app_or in H.
      destruct H as [H | [<- | []]]; [now left | now right].
    + intros H. apply Hseen in H. apply in_or_app.
      destruct H as [H | ->]; [now left | right; now left].
    + intros k d. destruct (string_dec k0 k) as [<- | Hne].
      * rewrite <- (set_absent _ _ _ Hnone), get_set_same. intros H. injection H as <-.
        exists seen, l0, []. repeat split. cbn [name]. intros Hin. apply Hget. now apply Hk.
      * rewrite <- (set_absent _ _ _ Hnone), get_set_other by exact Hne. intros H.
        apply named_after_first_snoc. now apply Hnames.
Qed.

Lemma stateful_fold_inv (data seen : list listing) (acc : Obj.props HostData) :
  stateful_inv seen acc ->
  stateful_inv (seen ++ data) (fold_left Stateful.rank_step data acc).
Proof.
  revert seen acc. induction data as [| l data IH]; intros seen acc Hinv; cbn [fold_left].
  - now rewrite app_nil_r.
  - replace (seen ++ l :: data)%list with ((seen ++ [l]) ++ data)%list
      by now rewrite <- app_assoc.
    apply IH. now apply stateful_step_inv.
Qed.

(** In the stateful ranking every entry carries the name of the first
    listing of its host. *)
Lemma stateful_rank_first_name (st : Stateful.state) (k : string) (d : HostData) :
  In (k, d) (Stateful.rankHosts st) -> named_after_first (Stateful.working st) k d.
Proof.
  intros Hin. unfold Stateful.rankHosts, Arr.slice0 in Hin.
  apply In_firstn in Hin.
  apply (Permutation_in _ (sort_perm _ _)) in Hin.
  apply (Permutation_in _ (entries_perm _)) in Hin.
  destruct (stateful_fold_inv (Stateful.working st) [] []) as (Hnd & _ & Hnames).
  { repeat split; cbn; try constructor; try tauto. discriminate. }
  apply Hnames. now apply In_get_NoDup.
Qed.

End RankNames.

(** ** The stateful handler end to end *)

Section StatefulRun.

Local Open Scope float_scope.

Lemma map_nth_seq (rows : list listing) :
  map (fun i => nth i rows []) (seq 0 (List.length rows)) = rows.
Proof.
  induction rows as [| x rows IH]; [reflexivity |].
  cbn [List.length seq map nth]. f_equal.
  rewrite <- seq_shift, map_map. exact IH.
Qed.

Lemma rows_of_seq (objs rows : list listing) :
  map (fun r => nth r (objs ++ rows)%list [])
      (map (Nat.add (List.length objs)) (seq 0 (List.length rows))) = rows.
Proof.
  rewrite map_map. rewrite <- (map_nth_seq rows) at 2.
  apply map_ext. intros i. apply app_nth2_plus.
Qed.

(** After [readCsv] the loaded array holds the decoder's rows. *)
Lemma readCsv_rows (st : Stateful.state) (rows : list listing) :
  let st' := Stateful.readCsv st rows in
  exists d, Stateful.data st' = Some d
            /\ map (Stateful.row st') (Stateful.array st' d) = rows.
Proof.
  cbv zeta. unfold Stateful.readCsv, Heap.alloc. eexists. split; [reflexivity |].
  unfold Stateful.array, Stateful.row, Heap.deref. cbn [Stateful.arrays Stateful.objects].
  rewrite app_nth2 by lia. rewrite Nat.sub_diag. cbn [nth].
  rewrite map_map. rewrite <- (rows_of_seq (Stateful.objects st) rows) at 2.
  now rewrite map_map.
Qed.

(** The working array after [filter] holds the loaded rows that pass, in
    their order. *)
Lemma stateful_filter_working (st : Stateful.state) (c : FilterParameters) (d : nat) :
  Stateful.data st = Some d ->
  exists st', Stateful.filter st c = Return st'
              /\ Stateful.working st'
                 = List.filter (Stateful.keeps c) (map (Stateful.row st) (Stateful.array st d)).
Proof.
  intros Hd. unfold Stateful.filter. rewrite Hd. eexists. split; [reflexivity |].
  unfold Stateful.working, Stateful.array, Stateful.row, Heap.alloc, Heap.deref.
  cbn [Stateful.arrays Stateful.objects Stateful.filteredListings fst snd].
  rewrite app_nth2 by lia. rewrite Nat.sub_diag. cbn [nth].
  symmetry. apply filter_map_swap.
Qed.

Lemma sort_ext {A : Type} (after after' : A -> A -> bool) (l : list A) :
  (forall x y, after x y = after' x y) -> Arr.sort after l = Arr.sort after' l.
Proof.
  intros Hext. induction l as [| x l IH]; [reflexivity |].
  cbn [Arr.sort]. rewrite IH. generalize (Arr.sort after' l). intros s.
  induction s as [| y s IHs]; [reflexivity |].
  cbn [Arr.insert]. now rewrite Hext, IHs.
Qed.

(** Ordering twice in the stateful handler leaves the working array as
    the first call made it. *)
Lemma stateful_order_idempotent (st st1 : Stateful.state) (property : string) :
  Stateful.order st property = Return st1 ->
  exists st2, Stateful.order st1 property = Return st2
              /\ Stateful.working st2 = Stateful.working st1.
Proof.
  intros H1.
  pose proof (stateful_order_in_place st property) as Hp. rewrite H1 in Hp.
  destruct Hp as (Hfl & Hobj & _ & Harr).
  pose proof (stateful_order_in_place st1 property) as Hq.
  assert (Hrow : forall r, Stateful.row st1 r = Stateful.row st r).
  { intros r. unfold Stateful.row. now rewrite Hobj. }
  assert (Hsorted : Arr.sort
            (fun a b => order_after property (Stateful.row st1 a) (Stateful.row st1 b))
            (Stateful.array st1 (Stateful.filteredListings st1))
          = Stateful.array st1 (Stateful.filteredListings st1)).
  { rewrite Hfl, Harr.
    rewrite (sort_ext _ (fun a b => order_after property (Stateful.row st a) (Stateful.row st b)))
      by (intros x y; now rewrite !Hrow).
    apply sort_idempotent. intros x y. apply order_after_asym. }
  destruct (Stateful.order st1 property) as [st2 | e] eqn:H2.
  - exists st2. split; [reflexivity |].
    destruct Hq as (Hfl2 & Hobj2 & _ & Harr2).
    unfold Stateful.working. rewrite Hfl2, Harr2, Hsorted.
    apply map_ext. intros r. unfold Stateful.row. now rewrite Hobj2.
  - exfalso. unfold Stateful.order in H1.
    destruct (Stateful.array st (Stateful.filteredListings st)) as [| r rows] eqn:Ha;
      [discriminate |].
    rewrite Hfl, Harr in Hq.
    apply (f_equal (@List.length nat)) in Hq. rewrite sort_length in Hq. discriminate.
Qed.

End StatefulRun.

(** * Further properties of the code *)

(** ** The sign of a difference and the order of two numbers *)

Section Binary64Order.

Lemma digits2_size (p : positive) : digits2_pos p = Pos.size p.
Proof. induction p as [p IH | p IH |]; cbn; congruence. Qed.

Lemma Zdigits2_log2 (m : Z) : 0 < m -> Zdigits2 m = Z.log2 m + 1.
Proof.
  destruct m as [| p | p]; try lia. intros _. cbn [Zdigits2]. rewrite digits2_size.
  destruct p; cbn [Z.log2 Pos.size]; lia.
Qed.

Lemma shr_1_m (mrs : shr_record) :
  0 <= shr_m mrs -> shr_m (shr_1 mrs) = shr_m mrs / 2.
Proof.
  destruct mrs as [m r s]. cbn [shr_m]. intros Hm.
  destruct m as [| [p | p |] | p]; try lia; cbn [shr_1 shr_m]; try reflexivity.
  - apply Z.div_unique with (r := 1); lia.
  - apply Z.div_unique with (r := 0); lia.
Qed.

Lemma iter_shr_m (n : positive) (mrs : shr_record) :
  0 <= shr_m mrs ->
  shr_m (iter_pos shr_1 n mrs) = shr_m mrs / 2 ^ Z.pos n.
Proof.
  revert mrs. induction n as [n IH | n IH |]; intros mrs Hm; cbn [iter_pos].
  - assert (H1 : 0 <= shr_m (shr_1 mrs)) by (rewrite shr_1_m by exact Hm; apply Z.div_pos; lia).
    assert (H2 : 0 <= shr_m (iter_pos shr_1 n (shr_1 mrs))).
    { rewrite IH by exact H1. apply Z.div_pos; [exact H1 | apply Z.pow_pos_nonneg; lia]. }
    rewrite IH, IH, shr_1_m by assumption.
    assert (Hp : 0 < 2 ^ Z.pos n) by (apply Z.pow_pos_nonneg; lia).
    rewrite !Z.div_div by lia. f_equal.
    replace (Z.pos n~1) with (1 + Z.pos n + Z.pos n) by lia.
    rewrite !Z.pow_add_r by lia. change (2 ^ 1) with 2. ring.
  - assert (H2 : 0 <= shr_m (iter_pos shr_1 n mrs)).
    { rewrite IH by exact Hm. apply Z.div_pos; [exact Hm | apply Z.pow_pos_nonneg; lia]. }
    rewrite IH, IH by assumption.
    assert (Hp : 0 < 2 ^ Z.pos n) by (apply Z.pow_pos_nonneg; lia).
    rewrite Z.div_div by lia. f_equal.
    replace (Z.pos n~0) with (Z.pos n + Z.pos n) by lia.
    rewrite Z.pow_add_r by lia. reflexivity.
  - rewrite shr_1_m by exact Hm. reflexivity.
Qed.

Lemma shr_record_of_loc_m (m : Z) (l : location) : shr_m (shr_record_of_loc m l) = m.
Proof. destruct l as [| []]; reflexivity. Qed.

Lemma Zdigits2_pos_ge (m : Z) : 0 < m -> 1 <= Zdigits2 m.
Proof.
  intros Hm. rewrite Zdigits2_log2 by exact Hm. pose proof (Z.log2_nonneg m). lia.
Qed.

(** Shifting to the format's exponent keeps a mantissa that is at least
    the smallest subnormal away from zero. *)
Lemma shr_fexp_pos (m e : Z) (l : location) :
  0 < m -> SpecFloat.emin prec emax < Zdigits2 m + e ->
  let r := shr_fexp prec emax m e l in
  0 < shr_m (fst r) /\ SpecFloat.emin prec emax < Zdigits2 (shr_m (fst r)) + snd r.
Proof.
  intros Hm He. cbv zeta. unfold shr_fexp, shr.
  destruct (fexp prec emax (Zdigits2 m + e) - e) as [| p | p] eqn:Hn; cbn [fst snd];
    try (rewrite shr_record_of_loc_m; split; assumption).
  rewrite iter_shr_m by (rewrite shr_record_of_loc_m; lia).
  rewrite shr_record_of_loc_m.
  assert (Hle : 2 ^ Z.pos p <= m).
  { rewrite Zdigits2_log2 in Hn, He by exact Hm.
    unfold fexp in Hn.
    assert (Z.pos p <= Z.log2 m).
    { unfold SpecFloat.emin, prec, emax in *. lia. }
    apply Z.le_trans with (2 ^ Z.log2 m).
    - apply Z.pow_le_mono_r; lia.
    - apply Z.log2_spec. exact Hm. }
  assert (Hq : 0 < m / 2 ^ Z.pos p).
  { apply Z.div_str_pos. split; [apply Z.pow_pos_nonneg; lia | exact Hle]. }
  split; [exact Hq |].
  pose proof (Zdigits2_pos_ge _ Hq).
  replace (e + Z.pos p) with (fexp prec emax (Zdigits2 m + e)) by lia.
  unfold fexp. lia.
Qed.

Lemma round_nearest_even_ge (m : Z) (l : location) : m <= round_nearest_even m l.
Proof. destruct l as [| []]; cbn; try destruct (Z.even m); lia. Qed.

(** Rounding a mantissa that is not below the smallest subnormal gives a
    finite number or an infinity of the sign asked for, never a zero. *)
Lemma binary_round_aux_nonzero (sx : bool) (m e : Z) (l : location) :
  0 < m -> SpecFloat.emin prec emax < Zdigits2 m + e ->
  let r := binary_round_aux prec emax sx m e l in
  sf_sign r = Some sx /\ sf_is_zero r = false.
Proof.
  intros Hm He. cbv zeta. unfold binary_round_aux.
  pose proof (shr_fexp_pos m e l Hm He) as H1. cbv zeta in H1.
  destruct (shr_fexp prec emax m e l) as [mrs1 e1]. cbn [fst snd] in H1.
  destruct H1 as [Hm1 He1].
  set (m2 := round_nearest_even (shr_m mrs1) (loc_of_shr_record mrs1)).
  assert (Hm2 : shr_m mrs1 <= m2) by apply round_nearest_even_ge.
  assert (He2 : SpecFloat.emin prec emax < Zdigits2 m2 + e1).
  { rewrite Zdigits2_log2 in * by lia.
    pose proof (Z.log2_le_mono _ _ Hm2). lia. }
  pose proof (shr_fexp_pos m2 e1 loc_Exact ltac:(lia) He2) as H2. cbv zeta in H2.
  destruct (shr_fexp prec emax m2 e1 loc_Exact) as [mrs2 e2]. cbn [fst snd] in H2.
  destruct H2 as [Hm3 _].
  destruct (shr_m mrs2) as [| p | p]; try lia.
  destruct (_ <=? _); split; reflexivity.
Qed.

(** The sign test on a rounded integer is the sign test on the integer. *)
Lemma binary_normalize_pos (D e : Z) :
  SpecFloat.emin prec emax <= e ->
  sf_pos (binary_normalize prec emax D e false) = (0 <? D).
Proof.
  intros He. destruct D as [| p | p]; cbn [binary_normalize]; [reflexivity | |].
  - unfold binary_round.
    assert (Hal : let r := shl_align p e (fexp prec emax (Z.pos (digits2_pos p) + e)) in
                  SpecFloat.emin prec emax <= snd r).
    { cbv zeta. unfold shl_align.
      destruct (fexp prec emax (Z.pos (digits2_pos p) + e) - e); cbn [snd]; try exact He.
      unfold fexp. lia. }
    cbv zeta in Hal. destruct (shl_align _ _ _) as [mz ez]. cbn [snd] in Hal.
    pose proof (binary_round_aux_nonzero false (Z.pos mz) ez loc_Exact ltac:(lia)) as H.
    cbv zeta in H. destruct H as [Hs Hz].
    { pose proof (Zdigits2_pos_ge (Z.pos mz) ltac:(lia)). lia. }
    destruct (binary_round_aux prec emax false (Z.pos mz) ez loc_Exact) as [s | s | | s m' e'];
      cbn in Hs, Hz |- *; try congruence; injection Hs as ->; reflexivity.
  - pose proof (binary_normalize_sign (Z.neg p) e) as H. cbn in H.
    destruct (binary_round prec emax true p e) as [s | s | | s m' e'];
      destruct H as [H | H]; cbn in H |- *; try congruence; injection H as ->; reflexivity.
Qed.

Lemma iter_xO (m d : positive) : Z.pos (Pos.iter xO m d) = Z.pos m * 2 ^ Z.pos d.
Proof.
  induction d as [| d IH] using Pos.peano_ind.
  - cbn. lia.
  - rewrite Pos.iter_succ, Pos2Z.inj_succ, Z.pow_succ_r by lia.
    rewrite Pos2Z.inj_xO, IH. ring.
Qed.

Lemma shl_align_value (m : positive) (e ez : Z) :
  ez <= e -> Z.pos (fst (shl_align m e ez)) = Z.pos m * 2 ^ (e - ez).
Proof.
  intros Hle. unfold shl_align. destruct (ez - e) as [| p | p] eqn:Hd; cbn [fst]; try lia.
  - replace (e - ez) with 0 by lia. cbn. lia.
  - rewrite iter_xO. f_equal. f_equal. lia.
Qed.

(** What a valid finite number satisfies: its exponent is not below the
    smallest one, its mantissa has at most [prec] bits, and exactly [prec]
    above the smallest exponent. *)
Lemma bounded_facts (m : positive) (e : Z) :
  bounded prec emax m e = true ->
  SpecFloat.emin prec emax <= e
  /\ Z.pos m < 2 ^ prec
  /\ (SpecFloat.emin prec emax < e -> 2 ^ (prec - 1) <= Z.pos m).
Proof.
  unfold bounded, canonical_mantissa. rewrite andb_true_iff, Z.eqb_eq, Z.leb_le.
  intros [Hc _]. change (Z.pos (digits2_pos m)) with (Zdigits2 (Z.pos m)) in Hc.
  rewrite Zdigits2_log2 in Hc by lia. unfold fexp in Hc.
  pose proof (Z.log2_spec (Z.pos m) ltac:(lia)) as [Hlo Hhi].
  repeat split.
  - lia.
  - apply Z.lt_le_trans with (2 ^ Z.succ (Z.log2 (Z.pos m))); [exact Hhi |].
    apply Z.pow_le_mono_r; unfold prec in *; lia.
  - intros He. replace (prec - 1) with (Z.log2 (Z.pos m)) by lia. exact Hlo.
Qed.

(** Comparing the aligned mantissas of two valid numbers is comparing
    exponents first and mantissas next. *)
Lemma aligned_compare (mx : positive) (ex : Z) (my : positive) (ey : Z) :
  bounded prec emax mx ex = true -> bounded prec emax my ey = true ->
  (Z.pos (fst (shl_align mx ex (Z.min ex ey))) ?= Z.pos (fst (shl_align my ey (Z.min ex ey))))
  = match ex ?= ey with
    | Lt => Lt
    | Gt => Gt
    | Eq => Pos.compare_cont Eq mx my
    end.
Proof.
  intros Hx Hy.
  destruct (bounded_facts _ _ Hx) as (Hex & Hxhi & Hxlo).
  destruct (bounded_facts _ _ Hy) as (Hey & Hyhi & Hylo).
  rewrite !shl_align_value by lia.
  assert (H53 : 2 ^ prec = 2 * 2 ^ (prec - 1)) by reflexivity.
  destruct (Z.compare_spec ex ey) as [Heq | Hlt | Hgt].
  - subst ey. rewrite Z.min_id, Z.sub_diag, Z.pow_0_r, !Z.mul_1_r. reflexivity.
  - apply Z.compare_lt_iff. rewrite Z.min_l by lia.
    rewrite Z.sub_diag, Z.pow_0_r, Z.mul_1_r.
    assert (2 ^ 1 <= 2 ^ (ey - ex)) by (apply Z.pow_le_mono_r; lia).
    change (2 ^ 1) with 2 in *. specialize (Hylo ltac:(lia)). nia.
  - apply Z.compare_gt_iff. rewrite Z.min_r by lia.
    rewrite Z.sub_diag, Z.pow_0_r, Z.mul_1_r.
    assert (2 ^ 1 <= 2 ^ (ex - ey)) by (apply Z.pow_le_mono_r; lia).
    change (2 ^ 1) with 2 in *. specialize (Hxlo ltac:(lia)). nia.
Qed.

(** On valid numbers the difference [x - y] is positive exactly when
    [y < x]. *)
Lemma SFsub_pos_iff (x y : spec_float) :
  valid_binary x = true -> valid_binary y = true ->
  sf_pos (SF64sub x y) = SFltb y x.
Proof.
  unfold SF64sub.
  destruct x as [sx | sx | | sx mx ex], y as [sy | sy | | sy my ey];
    try (destruct sx; try destruct sy; reflexivity);
    try (destruct sy; reflexivity); try reflexivity.
  cbn [valid_binary]. intros Hx Hy. unfold SFsub.
  destruct (bounded_facts _ _ Hx) as (Hex & _).
  destruct (bounded_facts _ _ Hy) as (Hey & _).
  rewrite binary_normalize_pos by lia.
  pose proof (aligned_compare mx ex my ey Hx Hy) as Hc.
  set (a := Z.pos (fst (shl_align mx ex (Z.min ex ey)))) in *.
  set (b := Z.pos (fst (shl_align my ey (Z.min ex ey)))) in *.
  assert (Ha : 0 < a) by (unfold a; lia).
  assert (Hb : 0 < b) by (unfold b; lia).
  unfold SFltb. cbn [SFcompare].
  rewrite (Z.compare_antisym ex ey).
  pose proof (Pos.compare_cont_antisym mx my Eq) as Hanti. cbn [CompOpp] in Hanti.
  rewrite <- Hanti. clear Hanti.
  destruct sx, sy; cbn [cond_Zopp];
    destruct (Z.compare_spec a b) as [Hab | Hab | Hab];
    destruct (ex ?= ey); cbn [CompOpp];
    try (rewrite <- Hc; cbn [CompOpp]);
    try discriminate Hc;
    first [ apply Z.ltb_lt; lia | apply Z.ltb_ge; lia ].
Qed.

Local Open Scope float_scope.

(** The comparator's test [0 < a - b] is the test [b < a]. *)
Lemma sub_pos_iff (a b : float) : (0 <? a - b) = (b <? a).
Proof.
  rewrite pos_spec, FloatAxioms.sub_spec, FloatAxioms.ltb_spec.
  apply SFsub_pos_iff; apply Prim2SF_valid.
Qed.

Ltac compare_cases :=
  repeat match goal with
    | H : context [Z.compare ?a ?b] |- _ => destruct (Z.compare_spec a b)
    | |- context [Z.compare ?a ?b] => destruct (Z.compare_spec a b)
    | H : context [Pos.compare_cont Eq ?a ?b] |- _ =>
        change (Pos.compare_cont Eq a b) with (Pos.compare a b) in H;
        destruct (Pos.compare_spec a b)
    | |- context [Pos.compare_cont Eq ?a ?b] =>
        change (Pos.compare_cont Eq a b) with (Pos.compare a b);
        destruct (Pos.compare_spec a b)
    end.

(** "Not above" is transitive through a number that is not [NaN]. *)
Lemma SFltb_false_trans (x y z : spec_float) :
  sf_is_nan y = false ->
  SFltb y x = false -> SFltb z y = false -> SFltb z x = false.
Proof.
  unfold SFltb.
  destruct x as [[] | [] | | [] mx ex], y as [[] | [] | | [] my ey],
    z as [[] | [] | | [] mz ez]; cbn [SFcompare sf_is_nan CompOpp];
    intros Hn H1 H2; try reflexivity; try discriminate;
    compare_cases; cbn [CompOpp] in *; subst;
    try reflexivity; try discriminate; try lia.
Qed.

Lemma SFleb_not_ltb (x y : spec_float) :
  SFleb x y = true -> SFltb y x = false.
Proof.
  unfold SFleb, SFltb. rewrite (SFcompare_antisym x y).
  destruct (SFcompare x y) as [[] |]; cbn; congruence.
Qed.

Lemma SFltb_false_leb (x y : spec_float) :
  sf_is_nan x = false -> sf_is_nan y = false ->
  SFltb y x = false -> SFleb x y = true.
Proof.
  unfold SFleb, SFltb.
  destruct x as [[] | [] | | [] mx ex], y as [[] | [] | | [] my ey];
    cbn [SFcompare sf_is_nan CompOpp]; intros Hx Hy H; try reflexivity; try discriminate;
    compare_cases; cbn [CompOpp] in *; subst;
    try reflexivity; try discriminate; try lia.
Qed.

(** A number strictly below a number equal to [v] is not equal to [v]. *)
Lemma SFltb_not_eqb (x y v : spec_float) :
  SFeqb x v = true -> SFltb y x = true -> SFeqb y v = false.
Proof.
  unfold SFeqb, SFltb.
  destruct x as [[] | [] | | [] mx ex], y as [[] | [] | | [] my ey],
    v as [[] | [] | | [] mv ev]; cbn [SFcompare CompOpp];
    intros H1 H2; try reflexivity; try discriminate;
    compare_cases; cbn [CompOpp] in *; subst;
    try reflexivity; try discriminate; try lia.
Qed.

Lemma ltb_false_trans (a b c : float) :
  is_nan b = false -> (b <? a) = false -> (c <? b) = false -> (c <? a) = false.
Proof. rewrite is_nan_spec, !FloatAxioms.ltb_spec. apply SFltb_false_trans. Qed.

Lemma leb_not_ltb (a b : float) : (a <=? b) = true -> (b <? a) = false.
Proof. rewrite FloatAxioms.leb_spec, FloatAxioms.ltb_spec. apply SFleb_not_ltb. Qed.

Lemma ltb_false_leb (a b : float) :
  is_nan a = false -> is_nan b = false -> (b <? a) = false -> (a <=? b) = true.
Proof. rewrite !is_nan_spec, FloatAxioms.leb_spec, FloatAxioms.ltb_spec. apply SFltb_false_leb. Qed.

Lemma ltb_not_eqb (a b v : float) :
  (a =? v) = true -> (b <? a) = true -> (b =? v) = false.
Proof. rewrite !FloatAxioms.eqb_spec, FloatAxioms.ltb_spec. apply SFltb_not_eqb. Qed.

End Binary64Order.

(** ** Stability of the sort *)

Section SortingMore.

Context {A : Type}.
Variable after : A -> A -> bool.

Lemma insert_filter_drop (p : A -> bool) (x : A) (l : list A) :
  p x = false -> filter p (Arr.insert after x l) = filter p l.
Proof.
  intros Hx. induction l as [| y l IH]; cbn [Arr.insert filter].
  - now rewrite Hx.
  - destruct (after x y); cbn [filter]; [now rewrite IH | now rewrite Hx].
Qed.

Lemma insert_head (x : A) (l : list A) :
  (forall z, In z l -> after x z = false) -> Arr.insert after x l = x :: l.
Proof.
  intros H. destruct l as [| y l]; [reflexivity |].
  cbn [Arr.insert]. now rewrite (H y (or_introl eq_refl)).
Qed.

(** A class of elements that no member is sorted past keeps its order. *)
Lemma sort_filter_class (p : A -> bool) (l : list A) :
  (forall x y, p x = true -> after x y = true -> p y = false) ->
  filter p (Arr.sort after l) = filter p l.
Proof.
  intros Hp. induction l as [| x l IH]; [reflexivity |].
  cbn [Arr.sort filter]. destruct (p x) eqn:Hx.
  - rewrite <- IH. generalize (Arr.sort after l). intros s.
    induction s as [| y s IHs]; cbn [Arr.insert filter]; [now rewrite Hx |].
    destruct (after x y) eqn:Hxy; cbn [filter].
    + now rewrite (Hp x y Hx Hxy), IHs.
    + now rewrite Hx.
  - now rewrite insert_filter_drop, IH.
Qed.

Hypothesis after_asym : forall x y, after x y = true -> after y x = false.
Hypothesis after_trans :
  forall x y z, after x y = false -> after y z = false -> after x z = false.

Lemma insert_filter_keep (p : A -> bool) (x : A) (s : list A) :
  StronglySorted (in_order after) s -> p x = true ->
  filter p (Arr.insert after x s) = Arr.insert after x (filter p s).
Proof.
  intros Hs Hx. induction Hs as [| y s Hs IH Hall]; cbn [Arr.insert filter].
  - now rewrite Hx.
  - destruct (after x y) eqn:Hxy.
    + cbn [filter]. rewrite IH. destruct (p y); [| reflexivity].
      cbn [Arr.insert]. now rewrite Hxy.
    + cbn [filter]. rewrite Hx. symmetry. apply insert_head.
      intros z Hz. destruct (p y) eqn:Hy.
      * destruct Hz as [<- | Hz]; [exact Hxy |].
        apply filter_In in Hz. destruct Hz as [Hz _].
        rewrite Forall_forall in Hall. apply (after_trans x y z Hxy). apply Hall, Hz.
      * apply filter_In in Hz. destruct Hz as [Hz _].
        rewrite Forall_forall in Hall. apply (after_trans x y z Hxy). apply Hall, Hz.
Qed.

(** Selecting before or after sorting gives the same array. *)
Lemma sort_filter_commute (p : A -> bool) (l : list A) :
  filter p (Arr.sort after l) = Arr.sort after (filter p l).
Proof.
  induction l as [| x l IH]; [reflexivity |].
  cbn [Arr.sort filter]. destruct (p x) eqn:Hx.
  - cbn [Arr.sort]. rewrite <- IH. apply insert_filter_keep; [| exact Hx].
    apply Sorted_StronglySorted.
    + intros a b c Hab Hbc. exact (after_trans a b c Hab Hbc).
    + apply sort_sorted, after_asym.
  - rewrite insert_filter_drop by exact Hx. exact IH.
Qed.

End SortingMore.

Lemma Sorted_impl {A : Type} (R R' : A -> A -> Prop) (l : list A) :
  (forall x y, R x y -> R' x y) -> Sorted R l -> Sorted R' l.
Proof.
  intros HR. induction 1 as [| x l Hs IH Hhd]; constructor; [exact IH |].
  destruct Hhd; constructor. now apply HR.
Qed.

Lemma Sorted_map {A B : Type} (f : A -> B) (R : B -> B -> Prop) (l : list A) :
  Sorted (fun a b => R (f a) (f b)) l -> Sorted R (map f l).
Proof.
  induction 1 as [| x l Hs IH Hhd]; cbn [map]; constructor; [exact IH |].
  destruct Hhd; cbn [map]; constructor. assumption.
Qed.

(** ** The comparator of [order] *)

Section OrderMore.

Local Open Scope float_scope.

Lemma order_after_spec (property : string) (x y : listing) :
  order_after property x y
  = (Functional.getNumber y property <? Functional.getNumber x property).
Proof. unfold order_after, Functional.createComparator. apply sub_pos_iff. Qed.

Lemma order_after_trans (property : string) (x y z : listing) :
  order_after property x y = false -> order_after property y z = false ->
  order_after property x z = false.
Proof.
  rewrite !order_after_spec. intros Hxy Hyz.
  eapply ltb_false_trans; [apply getNumber_not_nan | exact Hxy | exact Hyz].
Qed.

Lemma in_order_leb (property : string) (x y : listing) :
  in_order (order_after property) x y <->
  (Functional.getNumber x property <=? Functional.getNumber y property) = true.
Proof.
  unfold in_order. rewrite order_after_spec. split.
  - apply ltb_false_leb; apply getNumber_not_nan.
  - apply leb_not_ltb.
Qed.

End OrderMore.

(** ** What [order] returns *)

Section OrderResults.

Local Open Scope float_scope.

Lemma valued_class (property : string) (v : number) (x y : listing) :
  valued property v x = true -> order_after property x y = true ->
  valued property v y = false.
Proof.
  unfold valued. rewrite order_after_spec. apply ltb_not_eqb.
Qed.

(** X1.  The array [order] returns holds the listings of the array it was
    given, each as often as before, in ascending order of the value
    [getNumber] extracts from the field: no listing's value is above its
    successor's. *)
Theorem order_ascending (st : Functional.arrays) (h : nat) (property : string) :
  let o := Functional.handler_order st h property in
  Permutation (Functional.data_of (fst o) (snd o)) (Functional.data_of st h)
  /\ Sorted (ascending_by property) (Functional.data_of (fst o) (snd o)).
Proof.
  cbv zeta. rewrite handler_order_data. split; [apply sort_perm |].
  apply Sorted_impl with (R := in_order (order_after property)).
  - intros x y. apply in_order_leb.
  - apply sort_sorted, order_after_asym.
Qed.

(** X2.  [order] is stable: for every value, the listings whose extracted
    value equals it come out in the order they went in. *)
Theorem order_stable (st : Functional.arrays) (h : nat) (property : string) (v : number) :
  let o := Functional.handler_order st h property in
  filter (valued property v) (Functional.data_of (fst o) (snd o))
  = filter (valued property v) (Functional.data_of st h).
Proof.
  cbv zeta. rewrite handler_order_data.
  apply sort_filter_class. intros x y. apply valued_class.
Qed.

(** X3.  An array that is already in ascending order of the field comes
    back from [order] unchanged. *)
Theorem order_sorted_unchanged (st : Functional.arrays) (h : nat) (property : string) :
  Sorted (ascending_by property) (Functional.data_of st h) ->
  let o := Functional.handler_order st h property in
  Functional.data_of (fst o) (snd o) = Functional.data_of st h.
Proof.
  intros Hs. cbv zeta. rewrite handler_order_data.
  apply sort_sorted_id.
  apply Sorted_impl with (R := ascending_by property); [| exact Hs].
  intros x y. apply in_order_leb.
Qed.

Lemma order_sorted_unchanged_witness :
  let st := [rev scenario] in
  Sorted (ascending_by "price") (Functional.data_of st 0)
  /\ Functional.data_of (fst (Functional.handler_order st 0 "price"))
       (snd (Functional.handler_order st 0 "price")) = rev scenario.
Proof.
  cbv zeta.
  assert (Hs : Sorted (ascending_by "price") (Functional.data_of [rev scenario] 0)).
  { repeat constructor. }
  split; [exact Hs |].
  exact (order_sorted_unchanged [rev scenario] 0%nat "price" Hs).
Defined.

Lemma getNumber_missing (l : listing) (property : string) :
  Obj.get l property = None -> Functional.getNumber l property = 0.
Proof.
  intros H. unfold Functional.getNumber, field. now rewrite H.
Qed.

(** X4.  Ordering by a field that no listing of the array has changes
    nothing: every value is the default zero, and the sort is stable. *)
Theorem order_missing_field_unchanged
  (st : Functional.arrays) (h : nat) (property : string) :
  Forall (fun l => Obj.get l property = None) (Functional.data_of st h) ->
  let o := Functional.handler_order st h property in
  Functional.data_of (fst o) (snd o) = Functional.data_of st h.
Proof.
  intros Hall. cbv zeta. rewrite handler_order_data.
  apply sort_sorted_id.
  induction Hall as [| x l Hx Hl IH]; constructor; [exact IH |].
  destruct Hl as [| y l' Hy Hl']; constructor.
  apply in_order_leb. now rewrite (getNumber_missing x), (getNumber_missing y).
Qed.

Lemma order_missing_field_unchanged_witness :
  Forall (fun l => Obj.get l "price_per_room" = None) (Functional.data_of [scenario] 0)
  /\ Functional.data_of (fst (Functional.handler_order [scenario] 0 "price_per_room"))
       (snd (Functional.handler_order [scenario] 0 "price_per_room")) = scenario.
Proof.
  assert (Hall : Forall (fun l => Obj.get l "price_per_room" = None)
                   (Functional.data_of [scenario] 0)).
  { repeat constructor. }
  split; [exact Hall |].
  exact (order_missing_field_unchanged [scenario] 0%nat "price_per_room" Hall).
Defined.

(** X5.  In the functional handler filtering and ordering commute:
    [filter(c).order(p)] and [order(p).filter(c)] end with the same
    sequence of listings. *)
Theorem filter_order_commute
  (st : Functional.arrays) (h : nat) (c : FilterParameters) (property : string) :
  let f := Functional.handler_filter st h c in
  let fo := Functional.handler_order (fst f) (snd f) property in
  let o := Functional.handler_order st h property in
  let o_f := Functional.handler_filter (fst o) (snd o) c in
  Functional.data_of (fst fo) (snd fo) = Functional.data_of (fst o_f) (snd o_f).
Proof.
  cbv zeta. rewrite handler_order_data.
  destruct (handler_filter_spec st h c) as [_ ->].
  destruct (handler_filter_spec (fst (Functional.handler_order st h property))
              (snd (Functional.handler_order st h property)) c) as [_ ->].
  rewrite handler_order_data. unfold Functional.filterListings.
  symmetry. apply sort_filter_commute.
  - apply order_after_asym.
  - apply order_after_trans.
Qed.

End OrderResults.

(** ** The counts of the rankings *)

Section RankCounts.

Lemma listings_of_snoc (seen : list listing) (l : listing) (k : string) :
  listings_of (seen ++ [l]) k
  = listings_of seen k + (if string_dec (host_key l) k then 1 else 0).
Proof.
  unfold listings_of. rewrite map_app, count_occ_app. cbn [map count_occ].
  destruct (string_dec (host_key l) k); lia.
Qed.

Lemma listings_of_absent (seen : list listing) (k : string) :
  ~ In k (map host_key seen) -> listings_of seen k = 0.
Proof.
  intros H. unfold listings_of. apply (count_occ_not_In string_dec) in H. now rewrite H.
Qed.

Lemma functional_step_counts (seen : list listing) (acc : Obj.props HostData) (l : listing) :
  rank_inv seen acc -> counts_ok seen acc ->
  counts_ok (seen ++ [l]) (Functional.rank_step acc l).
Proof.
  intros (Hnd & Hk & _ & _) Hc k d. unfold Functional.rank_step.
  rewrite next_count_value, listings_of_snoc.
  destruct (string_dec (host_key l) k) as [<- | Hne].
  - rewrite get_set_same. intros H. injection H as <-. cbn [hcount].
    destruct (Obj.get acc (host_key l)) as [d0 |] eqn:Hget.
    + now rewrite (Hc _ _ Hget).
    + rewrite listings_of_absent; [reflexivity |].
      intros Hin. apply Hk in Hin. apply get_None_iff in Hget. contradiction.
  - rewrite get_set_other by exact Hne.
    rewrite (get_perm acc (entries acc)); [| exact Hnd | apply Permutation_sym, entries_perm].
    intros H. rewrite (Hc _ _ H). lia.
Qed.

Lemma functional_fold_counts (data seen : list listing) (acc : Obj.props HostData) :
  rank_inv seen acc -> counts_ok seen acc ->
  counts_ok (seen ++ data) (fold_left Functional.rank_step data acc).
Proof.
  revert seen acc. induction data as [| l data IH]; intros seen acc Hinv Hc; cbn [fold_left].
  - now rewrite app_nil_r.
  - replace (seen ++ l :: data)%list with ((seen ++ [l]) ++ data)%list
      by now rewrite <- app_assoc.
    apply IH; [now apply rank_step_inv | now apply functional_step_counts].
Qed.

Lemma rank_inv_nil : rank_inv [] [].
Proof. repeat split; cbn; try constructor; tauto. Qed.

Lemma rankHosts_entry_count (data : list listing) (k : string) (d : HostData) :
  In (k, d) (Functional.rankHosts data) -> hcount d = listings_of data k.
Proof.
  intros Hin. unfold Functional.rankHosts in Hin.
  apply (Permutation_in _ (sort_perm _ _)) in Hin.
  apply (Permutation_in _ (entries_perm _)) in Hin.
  pose proof (rank_fold_inv data [] [] rank_inv_nil) as Hinv.
  apply (functional_fold_counts data [] [] rank_inv_nil) with (k := k).
  - intros k' d'. cbn. discriminate.
  - apply In_get_NoDup; [apply Hinv | exact Hin].
Qed.

Lemma rankHosts_covers (data : list listing) (l : listing) :
  In l data -> In (host_key l) (map fst (Functional.rankHosts data)).
Proof.
  intros Hl. destruct (rankHosts_inv data) as (_ & Hk & _). apply Hk. now apply in_map.
Qed.

(** X6.  The functional ranking has exactly one entry per host id of the
    dataset; the entry's count is the number of listings with that id and
    its name is the name on the last of them. *)
Theorem rankHosts_entries (data : list listing) :
  let ranked := Functional.rankHosts data in
  NoDup (map fst ranked)
  /\ (forall l, In l data -> In (host_key l) (map fst ranked))
  /\ (forall k d, In (k, d) ranked ->
        hcount d = listings_of data k
        /\ 0 < hcount d
        /\ named_after_last data k d).
Proof.
  cbv zeta. destruct (rankHosts_inv data) as (Hnd & _ & _ & Hpos).
  split; [exact Hnd | split].
  - intros l. apply rankHosts_covers.
  - intros k d Hin. split; [| split].
    + now apply rankHosts_entry_count.
    + rewrite Forall_forall in Hpos. apply (Hpos (k, d) Hin).
    + now apply functional_rank_last_name.
Qed.






Lemma StronglySorted_app_le {A : Type} (R : A -> A -> Prop) (l1 l2 : list A) :
  StronglySorted R (l1 ++ l2) -> forall a b, In a l1 -> In b l2 -> R a b.
Proof.
  induction l1 as [| x l1 IH]; intros Hs a b Ha Hb; [destruct Ha |].
  cbn in Hs. inversion Hs as [| ? ? Hs' Hall]; subst.
  destruct Ha as [<- | Ha].
  - rewrite Forall_forall in Hall. apply Hall, in_or_app. now right.
  - now apply (IH Hs').
Qed.

Lemma count_desc_sorted_cut (n : nat) (ranked : list (string * HostData)) :
  Sorted count_desc ranked ->
  forall a b, In a (firstn n ranked) -> In b ranked ->
              In b (firstn n ranked) \/ hcount (snd b) <= hcount (snd a).
Proof.
  intros Hs a b Ha Hb.
  assert (Hss : StronglySorted count_desc (firstn n ranked ++ skipn n ranked)).
  { rewrite firstn_skipn. apply Sorted_StronglySorted; [| exact Hs].
    intros x y z. unfold count_desc. lia. }
  rewrite <- (firstn_skipn n ranked) in Hb. apply in_app_or in Hb.
  destruct Hb as [Hb | Hb]; [now left | right].
  pose proof (StronglySorted_app_le _ _ _ Hss a b Ha Hb) as H.
  unfold count_desc in H. lia.
Qed.

(** X7.  The hosts [rankHosts(limit)] shows are the largest: a host of the
    dataset that is left out has no more listings than any host shown. *)
Theorem rankHosts_shows_largest
  (st : Functional.arrays) (h : nat) (limit : nat) (l : listing) (k : string) (d : HostData) :
  In l (Functional.data_of st h) ->
  In (k, d) (Functional.handler_rankHosts st h limit) ->
  In (host_key l) (map fst (Functional.handler_rankHosts st h limit))
  \/ listings_of (Functional.data_of st h) (host_key l) <= hcount d.
Proof.
  intros Hl Hshown. unfold Functional.handler_rankHosts, Arr.slice0 in *.
  set (data := Functional.data_of st h) in *.
  pose proof (rankHosts_covers data l Hl) as Hall. apply in_map_iff in Hall.
  destruct Hall as ([k' d'] & Hk' & Hin'). cbn in Hk'. subst k'.
  destruct (count_desc_sorted_cut limit _ (rankHosts_sorted data) _ _ Hshown Hin')
    as [Hcut | Hle].
  - left. apply in_map_iff. now exists (host_key l, d').
  - right. rewrite <- (rankHosts_entry_count _ _ _ Hin'). exact Hle.
Qed.

Lemma rankHosts_shows_largest_witness :
  let l := row_of (VStr "$50") (VNum 1%float) (VNum 5%float) (VNum 2%float) "B" in
  let d := {| name := VStr "A"; hcount := 2 |} in
  In l (Functional.data_of [scenario] 0)
  /\ In ("1", d) (Functional.handler_rankHosts [scenario] 0 1)
  /\ (In (host_key l) (map fst (Functional.handler_rankHosts [scenario] 0 1))
      \/ listings_of (Functional.data_of [scenario] 0) (host_key l) <= hcount d).
Proof.
  cbv zeta.
  assert (Hl : In (row_of (VStr "$50") (VNum 1%float) (VNum 5%float) (VNum 2%float) "B")
                 (Functional.data_of [scenario] 0)).
  { cbn. tauto. }
  assert (Hd : In ("1", {| name := VStr "A"; hcount := 2 |})
                 (Functional.handler_rankHosts [scenario] 0 1)).
  { vm_compute. tauto. }
  split; [exact Hl | split; [exact Hd |]].
  exact (rankHosts_shows_largest [scenario] 0%nat 1%nat _ _ _ Hl Hd).
Defined.


End RankCounts.

(** ** The report and the frame of [computeStats] *)

Section StatsMore.

Local Open Scope float_scope.

Lemma price_of_annotate (l : listing) : Stateful.price_of (annotate l) = Stateful.price_of l.
Proof.
  unfold Stateful.price_of, annotate. now rewrite field_set_other by discriminate.
Qed.

Lemma bedrooms_of_annotate (l : listing) :
  Stateful.bedrooms_of (annotate l) = Stateful.bedrooms_of l.
Proof.
  unfold Stateful.bedrooms_of, annotate. now rewrite field_set_other by discriminate.
Qed.

Lemma score_of_annotate (l : listing) : Stateful.score_of (annotate l) = Stateful.score_of l.
Proof.
  unfold Stateful.score_of, annotate. now rewrite field_set_other by discriminate.
Qed.

Lemma keeps_annotate (c : FilterParameters) (l : listing) :
  Stateful.keeps c (annotate l) = Stateful.keeps c l.
Proof.
  unfold Stateful.keeps.
  now rewrite price_of_annotate, bedrooms_of_annotate, score_of_annotate.
Qed.

Lemma valid_host_annotate (l : listing) :
  Stateful.valid_host (annotate l) = Stateful.valid_host l.
Proof.
  unfold Stateful.valid_host, annotate. now rewrite field_set_other by discriminate.
Qed.

Lemma rank_step_annotate (acc : Obj.props HostData) (l : listing) :
  Stateful.rank_step acc (annotate l) = Stateful.rank_step acc l.
Proof.
  unfold Stateful.rank_step, host_key, annotate.
  now rewrite !field_set_other by discriminate.
Qed.

Lemma annotated_from_refl (O : Heap.heap listing) : annotated_from O O.
Proof. split; [reflexivity | intros r; now left]. Qed.

Lemma annotated_from_step (O objs : Heap.heap listing) (r : nat) :
  annotated_from O objs -> annotated_from O (annotate_at objs r).
Proof.
  intros [Hlen Hrows]. unfold annotate_at. split; [now rewrite update_length |].
  intros r'. destruct (Nat.eq_dec r r') as [<- | Hne].
  - destruct (Nat.lt_ge_cases r (List.length objs)) as [Hlt | Hge].
    + rewrite deref_update_same by exact Hlt. right.
      destruct (Hrows r) as [-> | ->]; [reflexivity | apply annotate_idempotent].
    + rewrite update_out_of_range by exact Hge. apply Hrows.
  - rewrite deref_update_other by exact Hne. apply Hrows.
Qed.

Lemma annotated_from_fold (O : Heap.heap listing) (rows : list nat) (objs : Heap.heap listing) :
  annotated_from O objs -> annotated_from O (fold_left annotate_at rows objs).
Proof.
  revert objs. induction rows as [| r rows IH]; intros objs H; [exact H |].
  cbn [fold_left]. apply IH. now apply annotated_from_step.
Qed.

Lemma annotated_from_read (f : listing -> number) (O objs : Heap.heap listing) (r : nat) :
  (forall l, f (annotate l) = f l) -> annotated_from O objs ->
  f (Heap.deref [] objs r) = f (Heap.deref [] O r).
Proof.
  intros Hf [_ Hrows]. destruct (Hrows r) as [-> | ->]; [reflexivity | apply Hf].
Qed.

(** The running totals read each row's price and bedrooms as they were
    before the pass. *)
Lemma stats_fold_totals (O : Heap.heap listing) (rows : list nat)
  (objs : Heap.heap listing) (tp tr : number) :
  annotated_from O objs ->
  fold_left Stateful.stats_step rows (objs, tp, tr)
  = (fold_left annotate_at rows objs,
     fold_left (fun s r => s + Stateful.price_of (Heap.deref [] O r)) rows tp,
     fold_left (fun s r => s + Stateful.bedrooms_of (Heap.deref [] O r)) rows tr).
Proof.
  revert objs tp tr. induction rows as [| r rows IH]; intros objs tp tr H; [reflexivity |].
  cbn [fold_left]. unfold Stateful.stats_step at 2.
  fold (annotate (Heap.deref [] objs r)). fold (annotate_at objs r).
  rewrite IH by now apply annotated_from_step.
  now rewrite (annotated_from_read Stateful.price_of O objs r price_of_annotate H),
    (annotated_from_read Stateful.bedrooms_of O objs r bedrooms_of_annotate H).
Qed.

Lemma fold_left_map_sum (f : listing -> number) (g : nat -> listing) (rows : list nat) (a : number) :
  fold_left (fun s r => s + f (g r)) rows a = fold_left (fun s l => s + f l) (map g rows) a.
Proof.
  revert a. induction rows as [| r rows IH]; intros a; [reflexivity |]. cbn. apply IH.
Qed.

Lemma computeStats_unfold (st : Stateful.state) :
  let refs := Stateful.array st (Stateful.filteredListings st) in
  Stateful.computeStats st
  = ({| Stateful.arrays := Stateful.arrays st;
        Stateful.objects := fold_left annotate_at refs (Stateful.objects st);
        Stateful.data := Stateful.data st;
        Stateful.filteredListings := Stateful.filteredListings st |},
     {| Stateful.validListings :=
          List.length (List.filter Stateful.valid_host (Stateful.working st));
        Stateful.averagePrice :=
          Stateful.round2 (sum_of Stateful.price_of (Stateful.working st)
                           / of_nat (List.length (Stateful.working st)));
        Stateful.avgPricePerRoom :=
          Stateful.round2 (sum_of Stateful.price_of (Stateful.working st)
                           / sum_of Stateful.bedrooms_of (Stateful.working st)) |}).
Proof.
  cbv zeta. unfold Stateful.computeStats.
  rewrite (stats_fold_totals (Stateful.objects st)) by apply annotated_from_refl.
  unfold sum_of, Stateful.working.
  rewrite <- !fold_left_map_sum, length_map, filter_map_swap, length_map.
  reflexivity.
Qed.

Lemma sum_price_total (rows : list listing) :
  sum_of Stateful.price_of rows = Functional.total "price" rows.
Proof.
  unfold sum_of, Functional.total. generalize 0. induction rows as [| l rows IH]; intros a;
    [reflexivity |].
  cbn [fold_left]. rewrite price_of_getNumber. apply IH.
Qed.

(** X9.  What the stateful [computeStats] prints agrees with the
    functional [calculateStats] of the same rows: the same number of valid
    hosts, and the same average price once rounded to two decimals.  Its
    average per room divides the same price total by the total of the
    integer-parsed bedroom counts. *)
Theorem computeStats_report (st : Stateful.state) :
  let report := snd (Stateful.computeStats st) in
  let stats := Functional.calculateStats (Stateful.working st) in
  Stateful.validListings report = Functional.validListings stats
  /\ Stateful.averagePrice report = Stateful.round2 (Functional.averagePrice stats)
  /\ Stateful.avgPricePerRoom report
     = Stateful.round2 (Functional.total "price" (Stateful.working st)
                        / sum_of Stateful.bedrooms_of (Stateful.working st)).
Proof.
  cbv zeta. pose proof (computeStats_unfold st) as H. cbv zeta in H. rewrite H.
  cbn [snd Stateful.validListings Stateful.averagePrice Stateful.avgPricePerRoom
       Functional.calculateStats Functional.validListings Functional.averagePrice].
  rewrite sum_price_total. repeat split.
Qed.

Lemma annotate_fold_length (rows : list nat) (objs : Heap.heap listing) :
  List.length (fold_left annotate_at rows objs) = List.length objs.
Proof. apply (annotated_from_fold objs rows objs (annotated_from_refl objs)). Qed.

Lemma annotate_fold_twice (rows : list nat) (objs : Heap.heap listing) :
  fold_left annotate_at rows (fold_left annotate_at rows objs)
  = fold_left annotate_at rows objs.
Proof.
  apply (nth_ext _ _ [] []); [now rewrite !annotate_fold_length |].
  intros r Hr. rewrite !annotate_fold_length in Hr.
  change (Heap.deref [] (fold_left annotate_at rows (fold_left annotate_at rows objs)) r
          = Heap.deref [] (fold_left annotate_at rows objs) r).
  rewrite annotate_fold by now rewrite annotate_fold_length.
  rewrite annotate_fold by exact Hr.
  destruct (in_dec Nat.eq_dec r rows); [apply annotate_idempotent | reflexivity].
Qed.

Lemma row_after_stats (st : Stateful.state) (r : nat) :
  let st' := fst (Stateful.computeStats st) in
  Stateful.row st' r = Stateful.row st r \/ Stateful.row st' r = annotate (Stateful.row st r).
Proof.
  cbv zeta. pose proof (computeStats_unfold st) as H. cbv zeta in H. rewrite H.
  cbn [fst]. unfold Stateful.row. cbn [Stateful.objects].
  apply (annotated_from_fold (Stateful.objects st) _ _ (annotated_from_refl _)).
Qed.

Lemma stats_frame (st : Stateful.state) :
  let st' := fst (Stateful.computeStats st) in
  Stateful.arrays st' = Stateful.arrays st
  /\ Stateful.data st' = Stateful.data st
  /\ Stateful.filteredListings st' = Stateful.filteredListings st
  /\ Stateful.objects st'
     = fold_left annotate_at (Stateful.array st (Stateful.filteredListings st))
         (Stateful.objects st).
Proof.
  cbv zeta. pose proof (computeStats_unfold st) as H. cbv zeta in H. rewrite H.
  repeat split.
Qed.

Lemma working_after_stats (B : Type) (f : listing -> B) (st : Stateful.state) :
  (forall l, f (annotate l) = f l) ->
  map f (Stateful.working (fst (Stateful.computeStats st))) = map f (Stateful.working st).
Proof.
  intros Hf. destruct (stats_frame st) as (Harr & _ & Hfl & _). cbv zeta in *.
  unfold Stateful.working, Stateful.array. rewrite Harr, Hfl, !map_map.
  apply map_ext. intros r.
  destruct (row_after_stats st r) as [-> | ->]; [reflexivity | apply Hf].
Qed.

(** X10.  [computeStats] only adds [price_per_room]: afterwards every
    row passes or fails every filter as before, counts as a valid host as
    before, and the ranking of the working array is the same. *)
Theorem computeStats_preserves (st : Stateful.state) :
  let st' := fst (Stateful.computeStats st) in
  Stateful.arrays st' = Stateful.arrays st
  /\ Stateful.data st' = Stateful.data st
  /\ Stateful.filteredListings st' = Stateful.filteredListings st
  /\ (forall (c : FilterParameters) (r : nat),
         Stateful.keeps c (Stateful.row st' r) = Stateful.keeps c (Stateful.row st r))
  /\ (forall r : nat,
         Stateful.valid_host (Stateful.row st' r) = Stateful.valid_host (Stateful.row st r))
  /\ Stateful.rankHosts st' = Stateful.rankHosts st.
Proof.
  cbv zeta. pose proof (row_after_stats st) as Hrow. cbv zeta in Hrow.
  destruct (stats_frame st) as (Harr & Hdata & Hfl & _). cbv zeta in *.
  split; [exact Harr | split; [exact Hdata | split; [exact Hfl |]]].
  split; [| split].
  - intros c r. destruct (Hrow r) as [-> | ->]; [reflexivity | apply keeps_annotate].
  - intros r. destruct (Hrow r) as [-> | ->]; [reflexivity | apply valid_host_annotate].
  - unfold Stateful.rankHosts, Stateful.working, Stateful.array. rewrite Harr, Hfl.
    f_equal. f_equal. f_equal.
    generalize (@nil (string * HostData)).
    induction (Heap.deref [] (Stateful.arrays st) (Stateful.filteredListings st))
      as [| r refs IH]; intros acc; [reflexivity |].
    cbn [map fold_left]. rewrite IH. f_equal.
    destruct (Hrow r) as [-> | ->]; [reflexivity | apply rank_step_annotate].
Qed.

Lemma sum_of_map (f : listing -> number) (rows : list listing) :
  sum_of f rows = fold_left (fun s x => s + x) (map f rows) 0.
Proof.
  unfold sum_of. generalize 0.
  induction rows as [| l rows IH]; intros a; [reflexivity | cbn; apply IH].
Qed.

(** X11.  Running [computeStats] a second time changes nothing: the same
    state and the same report. *)
Theorem computeStats_idempotent (st : Stateful.state) :
  Stateful.computeStats (fst (Stateful.computeStats st)) = Stateful.computeStats st.
Proof.
  pose proof (computeStats_unfold (fst (Stateful.computeStats st))) as H2. cbv zeta in H2.
  rewrite H2. clear H2.
  destruct (stats_frame st) as (Harr & Hdata & Hfl & Hobj). cbv zeta in *.
  assert (Hlen : List.length (Stateful.working (fst (Stateful.computeStats st)))
                 = List.length (Stateful.working st)).
  { unfold Stateful.working, Stateful.array. now rewrite !length_map, Harr, Hfl. }
  assert (Hvalid : List.filter (fun b : bool => b)
                     (map Stateful.valid_host (Stateful.working (fst (Stateful.computeStats st))))
                   = List.filter (fun b : bool => b)
                       (map Stateful.valid_host (Stateful.working st))).
  { now rewrite (working_after_stats _ _ st valid_host_annotate). }
  rewrite !(filter_map_swap (fun b : bool => b) Stateful.valid_host) in Hvalid.
  apply (f_equal (@List.length bool)) in Hvalid. rewrite !length_map in Hvalid.
  change (fun a : listing => Stateful.valid_host a) with Stateful.valid_host in Hvalid.
  rewrite Hvalid, Hlen, !sum_of_map.
  rewrite (working_after_stats _ _ st price_of_annotate),
    (working_after_stats _ _ st bedrooms_of_annotate).
  rewrite <- !sum_of_map.
  unfold Stateful.array at 1. rewrite Harr, Hfl, Hdata, Hobj.
  fold (Stateful.array st (Stateful.filteredListings st)).
  rewrite annotate_fold_twice.
  pose proof (computeStats_unfold st) as H. cbv zeta in H. now rewrite H.
Qed.

End StatsMore.

(** ** Sequences of calls *)

Section Calls.

Lemma live_init : live Stateful.init.
Proof.
  repeat split; cbn; try lia; try discriminate. repeat constructor.
Qed.

Lemma Forall_update {B : Type} (P : B -> Prop) (h : list B) (r : nat) (b : B) :
  Forall P h -> P b -> Forall P (Heap.update h r b).
Proof.
  intros Hh Hb. revert r. induction Hh as [| x h Hx Hh IH]; intros [| r]; cbn;
    constructor; auto.
Qed.

Lemma live_array (st : Stateful.state) (a : nat) :
  live st -> Forall (fun r => (r < List.length (Stateful.objects st))%nat) (Stateful.array st a).
Proof.
  intros (_ & _ & Hall & _). unfold Stateful.array, Heap.deref.
  destruct (Nat.lt_ge_cases a (List.length (Stateful.arrays st))) as [Hlt | Hge].
  - rewrite Forall_forall in Hall. apply Hall. now apply nth_In.
  - rewrite nth_overflow by exact Hge. constructor.
Qed.

Lemma live_perform (st st' : Stateful.state) (c : call) :
  live st -> perform st c = Return st' -> live st'.
Proof.
  intros Hlive Hc. pose proof Hlive as (Hfl & Hdata & Hall & Hexp).
  destruct c as [rows | filters | | | property]; cbn [perform] in Hc.
  - injection Hc as <-. unfold Stateful.readCsv, Heap.alloc.
    repeat split; cbn [Stateful.arrays Stateful.objects Stateful.data
                         Stateful.filteredListings].
    + rewrite length_app. cbn. lia.
    + intros d Hd. injection Hd as <-. rewrite length_app. cbn. lia.
    + apply Forall_app. split.
      * eapply Forall_impl; [| exact Hall]. intros a Ha.
        eapply Forall_impl; [| exact Ha]. intros r Hr. cbn in Hr. rewrite length_app. lia.
      * constructor; [| constructor]. apply Forall_forall. intros r Hr.
        apply in_map_iff in Hr. destruct Hr as (i & <- & Hi).
        apply in_seq in Hi. rewrite length_app. lia.
    + unfold Stateful.array, Heap.deref in *. cbn [Stateful.arrays].
      rewrite app_nth1; [exact Hexp | unfold exposed; cbn; lia].
  - unfold Stateful.filter in Hc. destruct (Stateful.data st) as [d |] eqn:Hd; [| discriminate].
    unfold Heap.alloc in Hc. injection Hc as <-.
    repeat split; cbn [Stateful.arrays Stateful.objects Stateful.data
                         Stateful.filteredListings].
    + rewrite length_app. cbn. lia.
    + intros d' Hd'. injection Hd' as <-.
      rewrite length_app. specialize (Hdata d eq_refl). lia.
    + apply Forall_app. split; [exact Hall |]. constructor; [| constructor].
      pose proof (live_array st d Hlive) as Hrefs.
      apply Forall_forall. intros r Hr. apply filter_In in Hr.
      rewrite Forall_forall in Hrefs. apply Hrefs, Hr.
    + unfold Stateful.array, Heap.deref in *. cbn [Stateful.arrays].
      rewrite app_nth1; [exact Hexp | unfold exposed; cbn; lia].
  - injection Hc as <-. destruct (stats_frame st) as (Harr & Hd & Hf & Hobj). cbv zeta in *.
    repeat split.
    + now rewrite Harr, Hf.
    + rewrite Harr, Hd. exact Hdata.
    + rewrite Harr, Hobj, annotate_fold_length. exact Hall.
    + unfold Stateful.array. rewrite Harr. exact Hexp.
  - injection Hc as <-. exact Hlive.
  - pose proof (stateful_order_in_place st property) as Hord. rewrite Hc in Hord.
    destruct Hord as (Hf & Hobj & Hd & Harr).
    assert (Harrays : Stateful.arrays st'
                      = Heap.update (Stateful.arrays st) (Stateful.filteredListings st)
                          (Stateful.array st' (Stateful.filteredListings st))).
    { unfold Stateful.order in Hc.
      destruct (Stateful.array st (Stateful.filteredListings st)) as [| r rows] eqn:Ha;
        [discriminate |].
      injection Hc as <-. cbn [Stateful.arrays].
      f_equal. unfold Stateful.array at 1. cbn [Stateful.arrays].
      now rewrite deref_update_same by exact Hfl. }
    assert (Hne : Stateful.filteredListings st <> exposed).
    { intros Heq. unfold Stateful.order in Hc. rewrite Heq, Hexp in Hc. discriminate. }
    repeat split.
    + rewrite Hf, Harrays, update_length. exact Hfl.
    + rewrite Hd, Harrays, update_length. exact Hdata.
    + rewrite Hobj, Harrays. apply Forall_update; [exact Hall |].
      rewrite Harr. pose proof (live_array st (Stateful.filteredListings st) Hlive) as Hrefs.
      apply Forall_forall. intros r Hr.
      apply (Permutation_in _ (sort_perm _ _)) in Hr.
      rewrite Forall_forall in Hrefs. now apply Hrefs.
    + unfold Stateful.array. rewrite Harrays, deref_update_other by exact Hne. exact Hexp.
Qed.

Lemma live_perform_all (cs : list call) (st : Stateful.state) :
  live st ->
  match perform_all st cs with
  | Return st' => live st'
  | Throw _ => True
  end.
Proof.
  revert st. induction cs as [| c cs IH]; intros st Hlive; cbn [perform_all]; [exact Hlive |].
  destruct (perform st c) as [st' | e] eqn:Hc; [| exact I].
  apply IH. now apply (live_perform st st' c).
Qed.

(** X12.  Whatever methods are called on a fresh stateful handler, in
    whatever order, the array behind its [filteredListings] property stays
    the empty array the constructor made: [filter] rebinds the variable
    and never fills that array. *)
Theorem exposed_stays_empty (cs : list call) :
  match perform_all Stateful.init cs with
  | Return st => Stateful.array st exposed = []
  | Throw _ => True
  end.
Proof.
  pose proof (live_perform_all cs Stateful.init live_init) as H.
  destruct (perform_all Stateful.init cs); [apply H | exact I].
Qed.

(** X13.  In the stateful handler a second [filter] starts again from the
    loaded rows: after [readCsv], [filter(c1)] and [filter(c2)] the working
    array holds the rows that pass [c2], whether or not they passed [c1]. *)
Theorem stateful_filter_replaces
  (st0 : Stateful.state) (rows : list listing) (c1 c2 : FilterParameters) :
  exists st1 st2,
    Stateful.filter (Stateful.readCsv st0 rows) c1 = Return st1
    /\ Stateful.filter st1 c2 = Return st2
    /\ Stateful.working st1 = List.filter (Stateful.keeps c1) rows
    /\ Stateful.working st2 = List.filter (Stateful.keeps c2) rows.
Proof.
  destruct (readCsv_rows st0 rows) as (d & Hd & Hrows). cbv zeta in *.
  set (st := Stateful.readCsv st0 rows) in *.
  destruct (stateful_filter_working st c1 d Hd) as (st1 & H1 & Hw1).
  pose proof (stateful_filter_frame st c1) as Hframe. rewrite H1 in Hframe.
  destruct Hframe as (Hobj & Hdata & _ & Harr).
  assert (Hd1 : Stateful.data st1 = Some d) by now rewrite Hdata.
  destruct (stateful_filter_working st1 c2 d Hd1) as (st2 & H2 & Hw2).
  exists st1, st2. repeat split; try assumption.
  - now rewrite Hw1, Hrows.
  - rewrite Hw2. rewrite Harr.
    + replace (map (Stateful.row st1) (Stateful.array st d))
        with (map (Stateful.row st) (Stateful.array st d)); [now rewrite Hrows |].
      apply map_ext. intros r. unfold Stateful.row. now rewrite Hobj.
    + unfold st, Stateful.readCsv, Heap.alloc in Hd |- *. cbn in Hd |- *.
      injection Hd as <-. rewrite length_app. cbn. lia.
Qed.

Lemma filter_filter {B : Type} (p q : B -> bool) (l : list B) :
  filter p (filter q l) = filter (fun x => q x && p x) l.
Proof.
  induction l as [| x l IH]; [reflexivity |]. cbn [filter].
  destruct (q x); cbn [filter andb]; [destruct (p x) |]; now rewrite IH.
Qed.

(** X14.  In the functional handler filters accumulate: [filter(c1)]
    followed by [filter(c2)] keeps, in their order, the listings that pass
    both, and the two filters can be applied in either order. *)
Theorem functional_filter_accumulates
  (st : Functional.arrays) (h : nat) (c1 c2 : FilterParameters) :
  let f1 := Functional.handler_filter st h c1 in
  let f12 := Functional.handler_filter (fst f1) (snd f1) c2 in
  let f2 := Functional.handler_filter st h c2 in
  let f21 := Functional.handler_filter (fst f2) (snd f2) c1 in
  Functional.data_of (fst f12) (snd f12)
  = filter (fun l => Functional.keeps c1 l && Functional.keeps c2 l) (Functional.data_of st h)
  /\ Functional.data_of (fst f21) (snd f21) = Functional.data_of (fst f12) (snd f12).
Proof.
  cbv zeta.
  destruct (handler_filter_spec (fst (Functional.handler_filter st h c1))
              (snd (Functional.handler_filter st h c1)) c2) as [_ ->].
  destruct (handler_filter_spec (fst (Functional.handler_filter st h c2))
              (snd (Functional.handler_filter st h c2)) c1) as [_ ->].
  destruct (handler_filter_spec st h c1) as [_ ->].
  destruct (handler_filter_spec st h c2) as [_ ->].
  unfold Functional.filterListings. rewrite !filter_filter. split; [reflexivity |].
  apply filter_ext. intros l. apply andb_comm.
Qed.

End Calls.

(** ** Answers to the prompts and the first filter *)

Section Prompt.

Local Open Scope float_scope.

Lemma zero_max_passes (min max v : number) :
  (max =? 0) = true ->
  Functional.passes min max v = true /\ Stateful.passes min max v = true.
Proof.
  intros H. unfold Functional.passes, Stateful.passes, truthy, is_zero, PrimFloat.zero.
  rewrite H. split; [now rewrite orb_true_r | reflexivity].
Qed.

Lemma passes_no_maximum (answer : option (number * number)) (v : number) :
  let pair (a : option (number * number)) :=
    match a with
    | Some (min, max) => (bound_or_zero min, bound_or_zero max)
    | None => (0, 0)
    end in
  Functional.passes (fst (pair answer)) (snd (pair answer)) v
  = Functional.passes (fst (pair (skip_unbounded answer))) (snd (pair (skip_unbounded answer))) v
  /\ Stateful.passes (fst (pair answer)) (snd (pair answer)) v
     = Stateful.passes (fst (pair (skip_unbounded answer)))
         (snd (pair (skip_unbounded answer))) v.
Proof.
  cbv zeta. unfold skip_unbounded, no_maximum.
  destruct answer as [[min max] |]; [| split; reflexivity].
  destruct (is_nan max) eqn:Hnan; cbn [orb fst snd].
  - unfold bound_or_zero at 2 4. rewrite Hnan. cbn [negb].
    split; [destruct (zero_max_passes (bound_or_zero min) 0 v eq_refl) as [-> _]
           | destruct (zero_max_passes (bound_or_zero min) 0 v eq_refl) as [_ ->]];
      reflexivity.
  - destruct (max =? 0) eqn:Hz; [| split; reflexivity].
    unfold bound_or_zero at 2 4. rewrite Hnan. cbn [negb fst snd].
    destruct (zero_max_passes (bound_or_zero min) max v Hz) as [-> ->].
    split; reflexivity.
Qed.

(** X15.  An answer without a usable maximum is the same as no answer: when
    the second component of an answer is missing, not a number or zero,
    both handlers select as if the prompt had been skipped, whatever the
    minimum of that answer says. *)
Theorem answer_without_maximum_is_skipped
  (price room score : option (number * number)) (l : listing) :
  let c := askFilterData price room score in
  let c' := askFilterData (skip_unbounded price) (skip_unbounded room) (skip_unbounded score) in
  Functional.keeps c l = Functional.keeps c' l
  /\ Stateful.keeps c l = Stateful.keeps c' l.
Proof.
  cbv zeta. unfold Functional.keeps, Stateful.keeps, askFilterData.
  cbn [price_min price_max room_min room_max score_min score_max].
  split.
  - destruct (passes_no_maximum price (Functional.getNumber l "price")) as [-> _].
    destruct (passes_no_maximum room (Functional.getNumber l "bedrooms")) as [-> _].
    destruct (passes_no_maximum score (Functional.getNumber l "review_scores_rating"))
      as [-> _].
    reflexivity.
  - destruct (passes_no_maximum price (Stateful.price_of l)) as [_ ->].
    destruct (passes_no_maximum room (Stateful.bedrooms_of l)) as [_ ->].
    destruct (passes_no_maximum score (Stateful.score_of l)) as [_ ->].
    reflexivity.
Qed.

Lemma SF_between_zero (x : spec_float) :
  SFleb (S754_zero false) x && SFleb x (S754_zero false) = SFeqb x (S754_zero false).
Proof. destruct x as [[] | [] | | [] m e]; reflexivity. Qed.

Lemma between_zero (v : number) : FirstScript.between 0 0 v = (v =? 0).
Proof.
  unfold FirstScript.between. rewrite !FloatAxioms.leb_spec, FloatAxioms.eqb_spec.
  change (Prim2SF 0) with (S754_zero false). apply SF_between_zero.
Qed.

(** X16.  The first script has no "zero means unbounded": when the three
    prompts are skipped it keeps exactly the listings whose price,
    bedrooms and score all read as zero, where both handlers keep every
    listing. *)
Theorem first_script_skipped_prompts (l : listing) :
  let c := askFilterData None None None in
  FirstScript.keeps c l
  = (Stateful.price_of l =? 0) && (Stateful.bedrooms_of l =? 0) && (Stateful.score_of l =? 0)
  /\ Stateful.keeps c l = true
  /\ Functional.keeps c l = true.
Proof.
  cbv zeta. unfold FirstScript.keeps, askFilterData.
  cbn [price_min price_max room_min room_max score_min score_max fst snd].
  rewrite !between_zero. repeat split.
Qed.

(** X17.  With three maxima that are not zero the first script selects
    what the stateful handler selects. *)
Theorem first_script_agrees_with_bounds (c : FilterParameters) (data : list listing) :
  (price_max c =? 0) = false ->
  (room_max c =? 0) = false ->
  (score_max c =? 0) = false ->
  filter (FirstScript.keeps c) data = filter (Stateful.keeps c) data.
Proof.
  intros Hp Hr Hs. apply filter_ext. intros l.
  unfold FirstScript.keeps, Stateful.keeps, Stateful.passes, FirstScript.between.
  now rewrite Hp, Hr, Hs.
Qed.

Lemma first_script_agrees_with_bounds_witness :
  let c := {| price_min := 60; price_max := 250; room_min := 1; room_max := 3;
              score_min := 0; score_max := 5 |} in
  filter (FirstScript.keeps c) scenario = filter (Stateful.keeps c) scenario.
Proof.
  apply first_script_agrees_with_bounds; reflexivity.
Defined.

End Prompt.

(** ** The two programs *)

Section Runs.

Local Open Scope float_scope.

Lemma insert_map {A B : Type} (f : A -> B) (after : B -> B -> bool) (x : A) (l : list A) :
  map f (Arr.insert (fun a b => after (f a) (f b)) x l) = Arr.insert after (f x) (map f l).
Proof.
  induction l as [| y l IH]; [reflexivity |]. cbn [Arr.insert map].
  destruct (after (f x) (f y)); cbn [map]; [now rewrite IH | reflexivity].
Qed.

(** Sorting references by what they point to sorts what they point to. *)
Lemma sort_map {A B : Type} (f : A -> B) (after : B -> B -> bool) (l : list A) :
  map f (Arr.sort (fun a b => after (f a) (f b)) l) = Arr.sort after (map f l).
Proof.
  induction l as [| x l IH]; [reflexivity |]. cbn [Arr.sort map].
  now rewrite insert_map, IH.
Qed.

Lemma stateful_order_working (st st' : Stateful.state) (property : string) :
  Stateful.order st property = Return st' ->
  Stateful.working st' = Arr.sort (order_after property) (Stateful.working st).
Proof.
  intros H. pose proof (stateful_order_in_place st property) as Hp. rewrite H in Hp.
  destruct Hp as (Hfl & Hobj & _ & Harr).
  unfold Stateful.working. rewrite Hfl, Harr.
  rewrite <- (sort_map (Stateful.row st) (order_after property)).
  apply map_ext. intros r. unfold Stateful.row. now rewrite Hobj.
Qed.


Lemma working_nil (st : Stateful.state) :
  Stateful.working st = [] <-> Stateful.array st (Stateful.filteredListings st) = [].
Proof.
  unfold Stateful.working.
  destruct (Stateful.array st (Stateful.filteredListings st)); cbn; split; congruence.
Qed.









End Runs.

(** ** Sorting a partly sorted array *)

Section SortAppend.

Context {A : Type}.
Variable after : A -> A -> bool.
Hypothesis after_asym : forall x y, after x y = true -> after y x = false.
Hypothesis after_trans :
  forall x y z, after x y = true -> after y z = true -> after x z = true.





End SortAppend.

(** ** The enumeration order of a table *)

Section Enumeration.

Context {V : Type}.















End Enumeration.

(** ** Tables that differ in their values only *)

Section Retag.

Context {V W : Type}.
Variable g : V -> W.

Lemma retag_get (o : Obj.props V) (k : string) :
  Obj.get (retag g o) k = option_map g (Obj.get o k).
Proof.
  induction o as [| [k' v] o IH]; [reflexivity |]. cbn.
  destruct (String.eqb k' k); [reflexivity | exact IH].
Qed.





End Retag.

(** ** The two rankings *)

Section RankingsAgree.









End RankingsAgree.

(** ** The two orderings *)

Section OrdersAgree.

(** X21.  [order] of the stateful handler arranges its working rows as
    [order] of the functional handler arranges the same rows; where the
    stateful one throws, the functional one returns the empty array. *)
Theorem orders_agree
  (st : Stateful.state) (fs : Functional.arrays) (h : nat) (property : string) :
  Functional.data_of fs h = Stateful.working st ->
  let o := Functional.handler_order fs h property in
  match Stateful.order st property with
  | Return st' => Stateful.working st' = Functional.data_of (fst o) (snd o)
  | Throw _ => Functional.data_of (fst o) (snd o) = []
  end.
Proof.
  intros Hdata. cbv zeta. rewrite handler_order_data, Hdata.
  destruct (Stateful.order st property) as [st' | e] eqn:Ho.
  - now apply stateful_order_working.
  - pose proof (stateful_order_in_place st property) as Hp. rewrite Ho in Hp.
    apply working_nil in Hp. now rewrite Hp.
Qed.

Lemma orders_agree_witness :
  let st := filtered scenario no_filter in
  let o := Functional.handler_order [scenario] 0 "price" in
  match Stateful.order st "price" with
  | Return st' => Stateful.working st' = Functional.data_of (fst o) (snd o)
  | Throw _ => Functional.data_of (fst o) (snd o) = []
  end.
Proof.
  apply (orders_agree (filtered scenario no_filter) [scenario] 0%nat "price").
  reflexivity.
Defined.

End OrdersAgree.
